(** * ClassBridge AI chat: the completion proxy and the conversation controller

    A shallow embedding of the two pieces of logic of the repository:

    - the edge function [chatbot] (a Deno [serve] handler) that forwards one
      user message to the external completion API, and
    - the React component [ChatBot] with its handlers [handleSendMessage],
      [updateDisplayName] and [loadProfile].

    JavaScript strings are sequences of UTF-16 code units, values received
    from the network are JSON trees, and everything the code awaits (the
    request body, [fetch], the message store, the function invocation) is an
    input of the model: the definitions say what the code does with each
    possible answer of the outside world. *)

From Stdlib Require Import List NArith ZArith Bool SpecFloat Lia.
From Stdlib Require Import Strings.String Strings.Ascii DecimalString.
Import ListNotations.
Local Open Scope list_scope.
Local Open Scope N_scope.
Set Warnings "-register-all".

(** ** JavaScript strings *)

(** A string is its list of UTF-16 code units. *)
Definition code_unit := N.
Definition jsstr := list code_unit.

(** String literals of the sources are ASCII, one code unit per character. *)
Definition lit (s : string) : jsstr :=
  map N_of_ascii (list_ascii_of_string s).
Arguments lit s%_string.

Fixpoint jsstr_eqb (a b : jsstr) : bool :=
  match a, b with
  | [], [] => true
  | x :: a', y :: b' => (x =? y) && jsstr_eqb a' b'
  | _, _ => false
  end.

(** ECMAScript's WhiteSpace production: TAB, VT, FF, ZWNBSP and the
    Space_Separator category, all of them in the basic plane. *)
Definition is_white_space (c : code_unit) : bool :=
  (c =? 0x09) || (c =? 0x0B) || (c =? 0x0C) || (c =? 0x20) || (c =? 0xA0)
  || (c =? 0x1680) || ((0x2000 <=? c) && (c <=? 0x200A))
  || (c =? 0x202F) || (c =? 0x205F) || (c =? 0x3000) || (c =? 0xFEFF).

(** ECMAScript's LineTerminator production. *)
Definition is_line_terminator (c : code_unit) : bool :=
  (c =? 0x0A) || (c =? 0x0D) || (c =? 0x2028) || (c =? 0x2029).

Definition strippable (c : code_unit) : bool :=
  is_white_space c || is_line_terminator c.

Fixpoint trim_start (s : jsstr) : jsstr :=
  match s with
  | [] => []
  | c :: rest => if strippable c then trim_start rest else s
  end.

Definition trim_end (s : jsstr) : jsstr := rev (trim_start (rev s)).

(** [String.prototype.trim]. *)
Definition trim (s : jsstr) : jsstr := trim_end (trim_start s).

(** [!s] for a string [s]. *)
Definition is_empty (s : jsstr) : bool :=
  match s with [] => true | _ :: _ => false end.

(** Number-to-string conversion of a non-negative integer, as a template
    literal performs it on [response.status]. *)
Definition decimal (n : N) : jsstr := lit (NilEmpty.string_of_uint (N.to_uint n)).

(** ** JavaScript values *)

(** What [JSON.parse] can produce. A number is an IEEE 754 double, written
    in the Standard Library's [spec_float]; a [JObj] is the object itself,
    its own properties with each key once, in the order the engine
    enumerates them. *)
Inductive json : Type :=
| JNull
| JBool (b : bool)
| JNum (x : spec_float)
| JStr (s : jsstr)
| JArr (items : list json)
| JObj (props : list (jsstr * json)).

(** A value a variable can hold: [undefined] or a JSON tree. *)
Inductive jsval : Type :=
| Undefined
| Val (v : json).

(** Exceptions and rejected promises. *)
Inductive exn : Type :=
| TypeError          (* property read on null or undefined *)
| SyntaxError        (* a body that is not JSON, or no body at all *)
| FetchFailed        (* fetch rejected: no response from the network *)
| BodyUnreadable     (* the response stream failed while being read *)
| PostgrestError     (* the [error] member of a store answer *)
| FunctionsError.    (* the [error] member of a function invocation *)

Inductive completion (A : Type) : Type :=
| Normal (a : A)
| Throw (e : exn).
Arguments Normal {A} a.
Arguments Throw {A} e.

(** ToBoolean, the test behind [!x] and [x || y]. *)
Definition to_boolean (v : jsval) : bool :=
  match v with
  | Undefined => false
  | Val JNull => false
  | Val (JBool b) => b
  | Val (JNum (S754_zero _)) => false
  | Val (JNum S754_nan) => false
  | Val (JNum _) => true
  | Val (JStr s) => negb (is_empty s)
  | Val (JArr _) => true
  | Val (JObj _) => true
  end.

Definition is_digit (c : code_unit) : bool := (0x30 <=? c) && (c <=? 0x39).

Fixpoint digits_value (acc : nat) (s : jsstr) : nat :=
  match s with
  | [] => acc
  | c :: rest => digits_value (10 * acc + N.to_nat (c - 0x30)) rest
  end.

(** A property key that is a canonical array index: ["0"], ["1"], ["27"],
    but not ["01"] and not [""]. *)
Definition array_index (k : jsstr) : option nat :=
  match k with
  | [] => None
  | c :: rest =>
      if forallb is_digit k && negb ((c =? 0x30) && negb (is_empty rest))
      then Some (digits_value 0 k)
      else None
  end.

Fixpoint own_property (props : list (jsstr * json)) (k : jsstr) : jsval :=
  match props with
  | [] => Undefined
  | (k', v) :: rest => if jsstr_eqb k' k then Val v else own_property rest k
  end.

(** The property read [v.k] (or [v[k]]). Reading from [null] or [undefined]
    throws; a primitive has no own data properties except the characters of
    a string; arrays answer to their indices and objects to their keys.
    The members that built-in prototypes add ([length], [toString], ...)
    are left out: the sources read only [message], [choices], [0],
    [content] and [response]. *)
Definition get (v : jsval) (k : jsstr) : completion jsval :=
  match v with
  | Undefined => Throw TypeError
  | Val JNull => Throw TypeError
  | Val (JBool _) => Normal Undefined
  | Val (JNum _) => Normal Undefined
  | Val (JStr s) =>
      match array_index k with
      | Some i => match nth_error s i with
                  | Some c => Normal (Val (JStr [c]))
                  | None => Normal Undefined
                  end
      | None => Normal Undefined
      end
  | Val (JArr items) =>
      match array_index k with
      | Some i => match nth_error items i with
                  | Some x => Normal (Val x)
                  | None => Normal Undefined
                  end
      | None => Normal Undefined
      end
  | Val (JObj props) => Normal (own_property props k)
  end.

(** An object literal some of whose members may be [undefined]. Reading an
    [undefined] member and reading an absent one give the same, and
    [JSON.stringify] writes neither, so the members kept are the defined
    ones. *)
Fixpoint defined_props (fields : list (jsstr * jsval)) : list (jsstr * json) :=
  match fields with
  | [] => []
  | (k, Undefined) :: rest => defined_props rest
  | (k, Val v) :: rest => (k, v) :: defined_props rest
  end.

Definition object_literal (fields : list (jsstr * jsval)) : json :=
  JObj (defined_props fields).

(** [JSON.stringify] on a number: a NaN or an infinity is written [null],
    and a zero is written [0] whatever its sign; every other double is
    written so that it reads back as itself. *)
Definition stringify_number (x : spec_float) : json :=
  match x with
  | S754_zero _ => JNum (S754_zero false)
  | S754_infinity _ => JNull
  | S754_nan => JNull
  | S754_finite _ _ _ => JNum x
  end.

(** [JSON.stringify] on a value, given as the tree its text stands for,
    which is what the receiver parses: strings, booleans and [null] pass
    unchanged, numbers as above, arrays and objects member by member. *)
Fixpoint stringify (v : json) : json :=
  match v with
  | JNull => JNull
  | JBool b => JBool b
  | JNum x => stringify_number x
  | JStr s => JStr s
  | JArr items => JArr (map stringify items)
  | JObj props => JObj (map (fun kv => (fst kv, stringify (snd kv))) props)
  end.

(** [JSON.stringify] on an object literal. *)
Definition stringify_object (fields : list (jsstr * jsval)) : json :=
  stringify (object_literal fields).

(** ** The completion proxy (the [chatbot] edge function) *)

Module Proxy.

(** The incoming request: its method and what [await req.json()] yields,
    a parsed tree or the exception of a body that is not JSON. *)
Record Request : Type := {
  method : jsstr;
  req_json : completion json
}.

(** A [Response]: a missing [status] in the constructor means 200, and the
    body is [null] or the object handed to [JSON.stringify]. *)
Record Response : Type := {
  status : N;
  headers : list (jsstr * jsstr);
  body : option json
}.

(** One outbound [fetch]. *)
Record FetchCall : Type := {
  url : jsstr;
  fetch_method : jsstr;
  fetch_headers : list (jsstr * jsstr);
  fetch_body : json
}.

(** The answer of the external completion API: the status line and what
    [response.text()] and [response.json()] yield. *)
Record Upstream : Type := {
  up_status : N;
  up_text : completion jsstr;
  up_json : completion json
}.

(** [response.ok]. *)
Definition ok (r : Upstream) : bool :=
  (200 <=? up_status r) && (up_status r <=? 299).

(** The surroundings of the handler: the credential read once at start-up
    by [Deno.env.get] and the behaviour of the network. *)
Record Env : Type := {
  openAIApiKey : option jsstr;
  fetch : FetchCall -> completion Upstream
}.

(** [!openAIApiKey]: the variable is unset, or set to the empty string. *)
Definition key_missing (key : option jsstr) : bool :=
  match key with
  | None => true
  | Some k => is_empty k
  end.

Definition key_text (key : option jsstr) : jsstr :=
  match key with
  | None => lit "undefined"
  | Some k => k
  end.

(** Effects of the handler: it may throw, and it records the outbound calls
    it makes. Console output is not modelled. *)
Definition Eff (A : Type) : Type :=
  list FetchCall -> completion A * list FetchCall.

Definition ret {A} (a : A) : Eff A := fun calls => (Normal a, calls).

Definition raise {A} (e : exn) : Eff A := fun calls => (Throw e, calls).

Definition bind {A B} (m : Eff A) (k : A -> Eff B) : Eff B :=
  fun calls =>
    match m calls with
    | (Normal a, calls') => k a calls'
    | (Throw e, calls') => (Throw e, calls')
    end.

(** [try { m } catch (error) { h error }]. *)
Definition try_catch {A} (m : Eff A) (h : exn -> Eff A) : Eff A :=
  fun calls =>
    match m calls with
    | (Normal a, calls') => (Normal a, calls')
    | (Throw e, calls') => h e calls'
    end.

(** Awaiting something already settled. *)
Definition await {A} (c : completion A) : Eff A :=
  match c with
  | Normal a => ret a
  | Throw e => raise e
  end.

Definition do_fetch (env : Env) (call : FetchCall) : Eff Upstream :=
  fun calls => (fetch env call, calls ++ [call]).

Notation "x <- m ;; k" := (bind m (fun x => k))
  (at level 61, m at next level, right associativity).

Definition corsHeaders : list (jsstr * jsstr) :=
  [ (lit "Access-Control-Allow-Origin", lit "*");
    (lit "Access-Control-Allow-Headers",
     lit "authorization, x-client-info, apikey, content-type") ].

Definition json_headers : list (jsstr * jsstr) :=
  corsHeaders ++ [ (lit "Content-Type", lit "application/json") ].

Definition system_instruction : jsstr :=
  lit "You are a helpful AI assistant for ClassBridge, an education platform. Help students and teachers with their educational needs. Be concise, accurate, and supportive in your responses.".

Definition system_entry : json :=
  JObj [ (lit "role", JStr (lit "system"));
         (lit "content", JStr system_instruction) ].

Definition user_entry (message : jsval) : json :=
  object_literal [ (lit "role", Val (JStr (lit "user")));
                   (lit "content", message) ].

(** The doubles [1000] and [0.7]: sign, 53-bit mantissa, exponent. *)
Definition num_1000 : spec_float := S754_finite false 8796093022208000 (-43).
Definition num_0_7 : spec_float := S754_finite false 6305039478318694 (-53).

(** The object [openAIPayload], before it is serialised. *)
Definition openAIPayload (message : jsval) : json :=
  JObj [ (lit "model", JStr (lit "gpt-4.1-2025-04-14"));
         (lit "messages", JArr [ system_entry; user_entry message ]);
         (lit "max_tokens", JNum num_1000);
         (lit "temperature", JNum num_0_7) ].

(** The request given to [fetch]; its body is
    [JSON.stringify(openAIPayload)]. *)
Definition completion_call (env : Env) (message : jsval) : FetchCall :=
  {| url := lit "https://api.openai.com/v1/chat/completions";
     fetch_method := lit "POST";
     fetch_headers :=
       [ (lit "Authorization", lit "Bearer " ++ key_text (openAIApiKey env));
         (lit "Content-Type", lit "application/json") ];
     fetch_body := stringify (openAIPayload message) |}.

Definition message_required : Response :=
  {| status := 400;
     headers := json_headers;
     body := Some (JObj [ (lit "error", JStr (lit "Message is required")) ]) |}.

Definition key_not_configured : Response :=
  {| status := 500;
     headers := json_headers;
     body := Some (JObj [ (lit "error",
                           JStr (lit "OpenAI API key not configured")) ]) |}.

Definition upstream_details (st : N) (errorData : jsstr) : jsstr :=
  lit "OpenAI API returned " ++ decimal st ++ lit ": " ++ errorData.

Definition upstream_failed (st : N) (errorData : jsstr) : Response :=
  {| status := 500;
     headers := json_headers;
     body := Some (JObj [ (lit "error",
                           JStr (lit "Failed to get response from AI"));
                          (lit "details",
                           JStr (upstream_details st errorData)) ]) |}.

(** The success response; its body is
    [JSON.stringify({ response: aiResponse })]. *)
Definition generated (aiResponse : jsval) : Response :=
  {| status := 200;
     headers := json_headers;
     body := Some (stringify_object [ (lit "response", aiResponse) ]) |}.

Definition internal_error : Response :=
  {| status := 500;
     headers := json_headers;
     body := Some (JObj [ (lit "error", JStr (lit "Internal server error")) ]) |}.

Definition preflight : Response :=
  {| status := 200; headers := corsHeaders; body := None |}.

(** [data.choices[0].message.content]. *)
Definition first_choice_content (data : json) : completion jsval :=
  match get (Val data) (lit "choices") with
  | Throw e => Throw e
  | Normal choices =>
      match get choices (lit "0") with
      | Throw e => Throw e
      | Normal choice =>
          match get choice (lit "message") with
          | Throw e => Throw e
          | Normal msg => get msg (lit "content")
          end
      end
  end.

(** The body of the [try] block. *)
Definition try_block (env : Env) (req : Request) : Eff Response :=
  parsed <- await (req_json req) ;;
  message <- await (get (Val parsed) (lit "message")) ;;
  if negb (to_boolean message) then ret message_required
  else if key_missing (openAIApiKey env) then ret key_not_configured
  else
    response <- do_fetch env (completion_call env message) ;;
    if negb (ok response) then
      errorData <- await (up_text response) ;;
      ret (upstream_failed (up_status response) errorData)
    else
      data <- await (up_json response) ;;
      aiResponse <- await (first_choice_content data) ;;
      ret (generated aiResponse).

(** The function given to [serve]. *)
Definition handler (env : Env) (req : Request) : Eff Response :=
  if jsstr_eqb (method req) (lit "OPTIONS") then ret preflight
  else try_catch (try_block env req) (fun _ => ret internal_error).

(** One request served on its own: the outcome and the outbound calls made. *)
Definition serve (env : Env) (req : Request) : completion Response * list FetchCall :=
  handler env req [].

(** *** Sample requests and surroundings *)

Definition post (parsed : completion json) : Request :=
  {| method := lit "POST"; req_json := parsed |}.

Definition sample_question : jsstr := lit "What is photosynthesis?".

Definition sample_answer : jsstr := lit "Plants turn light into sugar.".

Definition sample_completion : json :=
  JObj [ (lit "id", JStr (lit "chatcmpl-1"));
         (lit "choices",
          JArr [ JObj [ (lit "index", JNum (S754_zero false));
                        (lit "message",
                         JObj [ (lit "role", JStr (lit "assistant"));
                                (lit "content", JStr sample_answer) ]) ] ]) ].

(** An upstream that answers 200 with [sample_completion]. *)
Definition sample_upstream_ok : Upstream :=
  {| up_status := 200;
     up_text := Normal (lit "(completion)");
     up_json := Normal sample_completion |}.

(** An upstream that answers 429 with a plain-text body. *)
Definition sample_upstream_limited : Upstream :=
  {| up_status := 429;
     up_text := Normal (lit "rate limit exceeded");
     up_json := Throw SyntaxError |}.

(** An upstream that answers 200 with a body that is not JSON. *)
Definition sample_upstream_html : Upstream :=
  {| up_status := 200;
     up_text := Normal (lit "<html>");
     up_json := Throw SyntaxError |}.

Definition sample_env (answer : completion Upstream) : Env :=
  {| openAIApiKey := Some (lit "sk-test"); fetch := fun _ => answer |}.

End Proxy.

(** ** The conversation controller (the [ChatBot] component) *)

Module ChatBot.

Inductive Role : Type := RUser | RAssistant.

(** A row of the [messages] table, and an entry of the view. The content is
    whatever value the code hands to the store. *)
Record Message : Type := {
  id : jsstr;
  role : Role;
  content : jsval;
  created_at : jsstr;
  user_id : option jsstr
}.

Record Profile : Type := {
  profile_id : jsstr;
  display_name : option jsstr;
  email : jsstr
}.

Record Toast : Type := {
  title : jsstr;
  description : jsstr;
  destructive : bool
}.

(** The object passed to [insert]: [{ user_id: user?.id, role, content }]. *)
Record InsertReq : Type := {
  ins_user_id : option jsstr;
  ins_role : Role;
  ins_content : jsval
}.

(** The answer [{ data, error }] of [insert(...).select().single()]: the
    store assigns the id and the timestamp, or reports an error and writes
    nothing. *)
Inductive insert_result : Type :=
| Inserted (new_id : jsstr) (timestamp : jsstr)
| InsertError.

(** The answer [{ data, error }] of [supabase.functions.invoke]. *)
Inductive invoke_result : Type :=
| Invoked (data : jsval)
| InvokeError.

(** A call of [handleSendMessage] suspended at one of its three [await]s,
    with the variables its continuation still needs. *)
Inductive Suspended : Type :=
| AwaitUserSave (req : InsertReq) (userMessage : jsstr)
| AwaitInvoke (body : json)
| AwaitAssistantSave (req : InsertReq).

(** What the controller does to the outside, in program order. *)
Inductive Event : Type :=
| InsertRequested (req : InsertReq)
| Stored (m : Message)
| Shown (m : Message)
| ProxyInvoked (body : json)
| ProfileUpdateRequested (uid : option jsstr) (name : jsstr).

(** The session: the signed-in user ([user?.id], the same for the whole
    session), the component's React state, the toasts raised so far, the two
    tables of the store, the suspended calls of [handleSendMessage] and the
    trace of effects. A state setter takes effect where it is called. *)
Record State : Type := {
  user : option jsstr;
  messages : list Message;
  inputValue : jsstr;
  loading : bool;
  profile : option Profile;
  displayNameInput : jsstr;
  nameDialogOpen : bool;
  toasts : list Toast;
  db_messages : list Message;
  db_profiles : list Profile;
  pending : list Suspended;
  trace : list Event
}.

Definition setInputValue (v : jsstr) (s : State) : State :=
  {| user := user s; messages := messages s; inputValue := v;
     loading := loading s; profile := profile s;
     displayNameInput := displayNameInput s;
     nameDialogOpen := nameDialogOpen s; toasts := toasts s;
     db_messages := db_messages s; db_profiles := db_profiles s;
     pending := pending s; trace := trace s |}.

Definition setLoading (b : bool) (s : State) : State :=
  {| user := user s; messages := messages s; inputValue := inputValue s;
     loading := b; profile := profile s;
     displayNameInput := displayNameInput s;
     nameDialogOpen := nameDialogOpen s; toasts := toasts s;
     db_messages := db_messages s; db_profiles := db_profiles s;
     pending := pending s; trace := trace s |}.

Definition setMessages (f : list Message -> list Message) (s : State) : State :=
  {| user := user s; messages := f (messages s); inputValue := inputValue s;
     loading := loading s; profile := profile s;
     displayNameInput := displayNameInput s;
     nameDialogOpen := nameDialogOpen s; toasts := toasts s;
     db_messages := db_messages s; db_profiles := db_profiles s;
     pending := pending s; trace := trace s |}.

Definition setProfile (f : option Profile -> option Profile) (s : State) : State :=
  {| user := user s; messages := messages s; inputValue := inputValue s;
     loading := loading s; profile := f (profile s);
     displayNameInput := displayNameInput s;
     nameDialogOpen := nameDialogOpen s; toasts := toasts s;
     db_messages := db_messages s; db_profiles := db_profiles s;
     pending := pending s; trace := trace s |}.

Definition setDisplayNameInput (v : jsstr) (s : State) : State :=
  {| user := user s; messages := messages s; inputValue := inputValue s;
     loading := loading s; profile := profile s;
     displayNameInput := v;
     nameDialogOpen := nameDialogOpen s; toasts := toasts s;
     db_messages := db_messages s; db_profiles := db_profiles s;
     pending := pending s; trace := trace s |}.

Definition setNameDialogOpen (b : bool) (s : State) : State :=
  {| user := user s; messages := messages s; inputValue := inputValue s;
     loading := loading s; profile := profile s;
     displayNameInput := displayNameInput s;
     nameDialogOpen := b; toasts := toasts s;
     db_messages := db_messages s; db_profiles := db_profiles s;
     pending := pending s; trace := trace s |}.

Definition toast (t : Toast) (s : State) : State :=
  {| user := user s; messages := messages s; inputValue := inputValue s;
     loading := loading s; profile := profile s;
     displayNameInput := displayNameInput s;
     nameDialogOpen := nameDialogOpen s; toasts := toasts s ++ [t];
     db_messages := db_messages s; db_profiles := db_profiles s;
     pending := pending s; trace := trace s |}.

(** The store appends a row to [messages]. *)
Definition db_append (m : Message) (s : State) : State :=
  {| user := user s; messages := messages s; inputValue := inputValue s;
     loading := loading s; profile := profile s;
     displayNameInput := displayNameInput s;
     nameDialogOpen := nameDialogOpen s; toasts := toasts s;
     db_messages := db_messages s ++ [m]; db_profiles := db_profiles s;
     pending := pending s; trace := trace s |}.

Definition db_set_profiles (ps : list Profile) (s : State) : State :=
  {| user := user s; messages := messages s; inputValue := inputValue s;
     loading := loading s; profile := profile s;
     displayNameInput := displayNameInput s;
     nameDialogOpen := nameDialogOpen s; toasts := toasts s;
     db_messages := db_messages s; db_profiles := ps;
     pending := pending s; trace := trace s |}.

Definition set_pending (ks : list Suspended) (s : State) : State :=
  {| user := user s; messages := messages s; inputValue := inputValue s;
     loading := loading s; profile := profile s;
     displayNameInput := displayNameInput s;
     nameDialogOpen := nameDialogOpen s; toasts := toasts s;
     db_messages := db_messages s; db_profiles := db_profiles s;
     pending := ks; trace := trace s |}.

Definition emit (es : list Event) (s : State) : State :=
  {| user := user s; messages := messages s; inputValue := inputValue s;
     loading := loading s; profile := profile s;
     displayNameInput := displayNameInput s;
     nameDialogOpen := nameDialogOpen s; toasts := toasts s;
     db_messages := db_messages s; db_profiles := db_profiles s;
     pending := pending s; trace := trace s ++ es |}.

(** The row the store creates for an accepted insert. *)
Definition stored_row (req : InsertReq) (new_id timestamp : jsstr) : Message :=
  {| id := new_id; role := ins_role req; content := ins_content req;
     created_at := timestamp; user_id := ins_user_id req |}.

Definition insert_req (s : State) (r : Role) (c : jsval) : InsertReq :=
  {| ins_user_id := user s; ins_role := r; ins_content := c |}.

(** [{ body: { message: userMessage } }]. *)
Definition invoke_body (userMessage : jsstr) : json :=
  JObj [ (lit "message", JStr userMessage) ].

Definition send_failed_toast : Toast :=
  {| title := lit "Error";
     description := lit "Failed to send message. Please try again.";
     destructive := true |}.

Definition name_updated_toast : Toast :=
  {| title := lit "Display name updated!";
     description := lit "Your display name has been updated successfully.";
     destructive := false |}.

Definition name_update_failed_toast : Toast :=
  {| title := lit "Error";
     description := lit "Failed to update display name. Please try again.";
     destructive := true |}.

(** How the outside world answers during one call of a handler. *)
Record Env : Type := {
  store_insert : InsertReq -> insert_result;
  functions_invoke : json -> invoke_result;
  profiles_update : option jsstr -> jsstr -> bool;
  profiles_select : option jsstr -> bool
}.

(** *** Handlers run to completion *)

(** Code of the component: it may throw and it changes the session. *)
Definition M (A : Type) : Type := State -> completion A * State.

Definition ret {A} (a : A) : M A := fun s => (Normal a, s).

Definition bind {A B} (m : M A) (k : A -> M B) : M B :=
  fun s =>
    match m s with
    | (Normal a, s') => k a s'
    | (Throw e, s') => (Throw e, s')
    end.

Definition modify (f : State -> State) : M unit := fun s => (Normal tt, f s).

Definition await {A} (c : completion A) : M A := fun s => (c, s).

Notation "x <- m ;; k" := (bind m (fun x => k))
  (at level 61, m at next level, right associativity).

(** [saveMessage]: the insert is requested; the store either appends the
    row and returns it, or answers with an error, which is thrown again. *)
Definition saveMessage (env : Env) (r : Role) (c : jsval) : M Message :=
  fun s =>
    let req := insert_req s r c in
    let s1 := emit [InsertRequested req] s in
    match store_insert env req with
    | Inserted new_id timestamp =>
        let data := stored_row req new_id timestamp in
        (Normal data, emit [Stored data] (db_append data s1))
    | InsertError => (Throw PostgrestError, s1)
    end.

(** [supabase.functions.invoke('chatbot', { body })] followed by
    [if (error) throw error]. *)
Definition invoke_chatbot (env : Env) (body : json) : M jsval :=
  fun s =>
    let s1 := emit [ProxyInvoked body] s in
    match functions_invoke env body with
    | Invoked data => (Normal data, s1)
    | InvokeError => (Throw FunctionsError, s1)
    end.

(** [setMessages(prev => [...prev, m])]. *)
Definition show (m : Message) (s : State) : State :=
  emit [Shown m] (setMessages (fun prev => prev ++ [m]) s).

(** The [catch] and [finally] blocks of [handleSendMessage]. *)
Definition send_failed (s : State) : State :=
  setLoading false (toast send_failed_toast s).

(** The body of the [try] block of [handleSendMessage]. *)
Definition send_try (env : Env) (userMessage : jsstr) : M unit :=
  savedUserMessage <- saveMessage env RUser (Val (JStr userMessage)) ;;
  _ <- modify (show savedUserMessage) ;;
  data <- invoke_chatbot env (invoke_body userMessage) ;;
  assistantResponse <- await (get data (lit "response")) ;;
  savedAssistantMessage <- saveMessage env RAssistant assistantResponse ;;
  modify (show savedAssistantMessage).

Definition handleSendMessage (env : Env) (s : State) : State :=
  if is_empty (trim (inputValue s)) || loading s then s
  else
    let userMessage := trim (inputValue s) in
    let s1 := setLoading true (setInputValue [] s) in
    match send_try env userMessage s1 with
    | (Normal _, s2) => setLoading false s2
    | (Throw _, s2) => send_failed s2
    end.

(** [.eq('id', user?.id)]: a row matches when its id is the user's. *)
Definition id_matches (uid : option jsstr) (row_id : jsstr) : bool :=
  match uid with
  | Some u => jsstr_eqb row_id u
  | None => false
  end.

Definition with_display_name (name : jsstr) (p : Profile) : Profile :=
  {| profile_id := profile_id p; display_name := Some name; email := email p |}.

(** [update({ display_name }).eq('id', user?.id)] on the [profiles] table. *)
Definition overwrite_name (uid : option jsstr) (name : jsstr) (p : Profile) : Profile :=
  if id_matches uid (profile_id p) then with_display_name name p else p.

Definition updateDisplayName (env : Env) (s : State) : State :=
  if is_empty (trim (displayNameInput s)) then s
  else
    let name := trim (displayNameInput s) in
    let s1 := emit [ProfileUpdateRequested (user s) name] s in
    if profiles_update env (user s) name then
      let s2 := db_set_profiles (map (overwrite_name (user s) name) (db_profiles s1)) s1 in
      let s3 := setProfile (fun prev => match prev with
                                        | Some p => Some (with_display_name name p)
                                        | None => None
                                        end) s2 in
      toast name_updated_toast (setNameDialogOpen false s3)
    else toast name_update_failed_toast s1.

(** [data.display_name || '']. *)
Definition or_empty (n : option jsstr) : jsstr :=
  match n with
  | Some v => v
  | None => []
  end.

(** [loadProfile]: [single()] reports an error unless exactly one row
    matches; the [catch] block only logs. *)
Definition loadProfile (env : Env) (s : State) : State :=
  if profiles_select env (user s) then
    match filter (fun p => id_matches (user s) (profile_id p)) (db_profiles s) with
    | [data] => setDisplayNameInput (or_empty (display_name data))
                  (setProfile (fun _ => Some data) s)
    | _ => s
    end
  else s.

(** *** The same handler, one [await] at a time *)

(** What an awaited promise settles with. *)
Inductive Settled : Type :=
| InsertSettled (r : insert_result)
| InvokeSettled (r : invoke_result).

(** [handleSendMessage] from its first line to its first [await]. *)
Definition send_start (s : State) : State :=
  if is_empty (trim (inputValue s)) || loading s then s
  else
    let userMessage := trim (inputValue s) in
    let s1 := setLoading true (setInputValue [] s) in
    let req := insert_req s1 RUser (Val (JStr userMessage)) in
    set_pending (pending s1 ++ [AwaitUserSave req userMessage])
      (emit [InsertRequested req] s1).

Definition suspend (k : Suspended) (s : State) : State :=
  set_pending (pending s ++ [k]) s.

(** A suspended call goes on with what its promise settled with, up to its
    next [await] or to its end. [None]: the answer is not one the awaited
    operation can give. *)
Definition send_resume (k : Suspended) (r : Settled) (s : State) : option State :=
  match k, r with
  | AwaitUserSave req userMessage, InsertSettled (Inserted new_id timestamp) =>
      let data := stored_row req new_id timestamp in
      let s1 := show data (emit [Stored data] (db_append data s)) in
      let body := invoke_body userMessage in
      Some (suspend (AwaitInvoke body) (emit [ProxyInvoked body] s1))
  | AwaitUserSave _ _, InsertSettled InsertError => Some (send_failed s)
  | AwaitInvoke _, InvokeSettled (Invoked data) =>
      match get data (lit "response") with
      | Normal assistantResponse =>
          let req := insert_req s RAssistant assistantResponse in
          Some (suspend (AwaitAssistantSave req) (emit [InsertRequested req] s))
      | Throw _ => Some (send_failed s)
      end
  | AwaitInvoke _, InvokeSettled InvokeError => Some (send_failed s)
  | AwaitAssistantSave req, InsertSettled (Inserted new_id timestamp) =>
      let data := stored_row req new_id timestamp in
      Some (setLoading false (show data (emit [Stored data] (db_append data s))))
  | AwaitAssistantSave _, InsertSettled InsertError => Some (send_failed s)
  | _, _ => None
  end.

Fixpoint remove_nth {A} (n : nat) (l : list A) : list A :=
  match n, l with
  | _, [] => []
  | O, _ :: rest => rest
  | S n', x :: rest => x :: remove_nth n' rest
  end.

(** What can happen in a session: the user edits the input, the user
    presses send (the button or Enter), or the promise awaited by the n-th
    suspended call settles. Each handler reads the state as the previous
    event left it, React having committed that event's updates before the
    next one is dispatched. *)
Inductive Input : Type :=
| Typed (text : jsstr)
| SendPressed
| Settles (n : nat) (r : Settled).

Definition step (i : Input) (s : State) : State :=
  match i with
  | Typed text => setInputValue text s
  | SendPressed => send_start s
  | Settles n r =>
      match nth_error (pending s) n with
      | Some k =>
          match send_resume k r (set_pending (remove_nth n (pending s)) s) with
          | Some s' => s'
          | None => s
          end
      | None => s
      end
  end.

Definition run (inputs : list Input) (s : State) : State :=
  fold_left (fun acc i => step i acc) inputs s.

(** The answer of the outside world to what a suspended call awaits. *)
Definition answer (env : Env) (k : Suspended) : Settled :=
  match k with
  | AwaitUserSave req _ => InsertSettled (store_insert env req)
  | AwaitInvoke body => InvokeSettled (functions_invoke env body)
  | AwaitAssistantSave req => InsertSettled (store_insert env req)
  end.

Definition settle_next (env : Env) (s : State) : State :=
  match pending s with
  | [] => s
  | k :: _ => step (Settles 0 (answer env k)) s
  end.

(** One press of send with nothing else happening until the call ends. *)
Definition send_alone (env : Env) (s : State) : State :=
  settle_next env (settle_next env (settle_next env (step SendPressed s))).

(** *** Sessions of several submissions *)

(** The user types [text] and sends it, and the call runs to its end. *)
Definition submit (env : Env) (text : jsstr) (s : State) : State :=
  handleSendMessage env (setInputValue text s).

(** A submission the guard lets through. *)
Definition accepted (s : State) : Prop :=
  is_empty (trim (inputValue s)) = false /\ loading s = false.

(** A successful round trip: the submission is accepted and ends without an
    error being surfaced. *)
Definition round_trip (env : Env) (text : jsstr) (s : State) : Prop :=
  accepted (setInputValue text s) /\
  toasts (submit env text s) = toasts s.

Fixpoint submit_all (subs : list (Env * jsstr)) (s : State) : State :=
  match subs with
  | [] => s
  | (env, text) :: rest => submit_all rest (submit env text s)
  end.

Fixpoint round_trips (subs : list (Env * jsstr)) (s : State) : Prop :=
  match subs with
  | [] => True
  | (env, text) :: rest =>
      round_trip env text s /\ round_trips rest (submit env text s)
  end.

(** [select('*').eq('user_id', uid)] on the [messages] table. *)
Definition same_user (uid : option jsstr) (m : Message) : bool :=
  match uid, user_id m with
  | Some u, Some v => jsstr_eqb v u
  | _, _ => false
  end.

Definition stored_for (uid : option jsstr) (s : State) : list Message :=
  filter (same_user uid) (db_messages s).

(** *** Outcomes of a call, turns of a session *)

(** The insert request of the user turn of a submission made in [s]. *)
Definition user_request (s : State) : InsertReq :=
  insert_req s RUser (Val (JStr (trim (inputValue s)))).

(** The effects of a round trip that went through, in program order. *)
Definition round_trip_events (userMessage : jsstr) (u a : Message) : list Event :=
  [ InsertRequested {| ins_user_id := user_id u; ins_role := role u;
                       ins_content := content u |};
    Stored u; Shown u;
    ProxyInvoked (invoke_body userMessage);
    InsertRequested {| ins_user_id := user_id a; ins_role := role a;
                       ins_content := content a |};
    Stored a; Shown a ].

(** How one accepted call of [handleSendMessage] ends. *)
Inductive Outcome : Type :=
| UserSaveFailed
| ProxyFailed (u : Message)
| AssistantSaveFailed (u : Message) (assistantResponse : jsval)
| Completed (u a : Message).

Definition outcome (env : Env) (s : State) : Outcome :=
  match store_insert env (user_request s) with
  | InsertError => UserSaveFailed
  | Inserted new_id timestamp =>
      let u := stored_row (user_request s) new_id timestamp in
      match functions_invoke env (invoke_body (trim (inputValue s))) with
      | InvokeError => ProxyFailed u
      | Invoked data =>
          match get data (lit "response") with
          | Throw _ => ProxyFailed u
          | Normal assistantResponse =>
              let req := insert_req s RAssistant assistantResponse in
              match store_insert env req with
              | InsertError => AssistantSaveFailed u assistantResponse
              | Inserted new_id' timestamp' =>
                  Completed u (stored_row req new_id' timestamp')
              end
          end
      end
  end.

(** The rows an outcome leaves in the store and in the view. *)
Definition outcome_rows (o : Outcome) : list Message :=
  match o with
  | UserSaveFailed => []
  | ProxyFailed u => [u]
  | AssistantSaveFailed u _ => [u]
  | Completed u a => [u; a]
  end.

(** The effects of a call with that outcome, in program order. *)
Definition outcome_events (s : State) (o : Outcome) : list Event :=
  match o with
  | UserSaveFailed => [ InsertRequested (user_request s) ]
  | ProxyFailed u =>
      [ InsertRequested (user_request s); Stored u; Shown u;
        ProxyInvoked (invoke_body (trim (inputValue s))) ]
  | AssistantSaveFailed u c =>
      [ InsertRequested (user_request s); Stored u; Shown u;
        ProxyInvoked (invoke_body (trim (inputValue s)));
        InsertRequested (insert_req s RAssistant c) ]
  | Completed u a =>
      [ InsertRequested (user_request s); Stored u; Shown u;
        ProxyInvoked (invoke_body (trim (inputValue s)));
        InsertRequested (insert_req s RAssistant (content a));
        Stored a; Shown a ]
  end.

Definition outcome_toasts (o : Outcome) : list Toast :=
  match o with
  | Completed _ _ => []
  | _ => [ send_failed_toast ]
  end.

(** One completed round trip of a session: the text sent and the two rows. *)
Definition Turn : Type := (jsstr * Message * Message)%type.

Definition turn_rows (t : Turn) : list Message :=
  let '(_, u, a) := t in [u; a].

Definition turn_events (t : Turn) : list Event :=
  let '(m, u, a) := t in round_trip_events m u a.

Definition turn_of (uid : option jsstr) (t : Turn) : Prop :=
  let '(_, u, a) := t in
  role u = RUser /\ role a = RAssistant /\ user_id u = uid /\ user_id a = uid.

(** The states a session can be in: ready, with nothing suspended, or
    sending, with exactly one call suspended. *)
Definition ready_or_sending (s : State) : Prop :=
  (loading s = false /\ pending s = []) \/
  (loading s = true /\ exists k, pending s = [k]).

(** *** A sample session *)

Definition sample_user : option jsstr := Some (lit "user-1").

Definition sample_profile : Profile :=
  {| profile_id := lit "user-1"; display_name := None;
     email := lit "ada@example.org" |}.

(** A session just initialised: nothing shown, nothing stored but the
    profile, nothing in flight. *)
Definition sample_session : State :=
  {| user := sample_user; messages := []; inputValue := [];
     loading := false; profile := Some sample_profile;
     displayNameInput := []; nameDialogOpen := true; toasts := [];
     db_messages := []; db_profiles := [sample_profile];
     pending := []; trace := [] |}.

Definition sample_reply : jsval :=
  Val (JObj [ (lit "response", JStr (lit "Plants turn light into sugar.")) ]).

(** A store that accepts every write and a proxy that answers. *)
Definition sample_env : Env :=
  {| store_insert := fun req =>
       match ins_role req with
       | RUser => Inserted (lit "m-1") (lit "2025-01-01T10:00:00Z")
       | RAssistant => Inserted (lit "m-2") (lit "2025-01-01T10:00:02Z")
       end;
     functions_invoke := fun _ => Invoked sample_reply;
     profiles_update := fun _ _ => true;
     profiles_select := fun _ => true |}.

(** The same store with a proxy that is down. *)
Definition sample_env_proxy_down : Env :=
  {| store_insert := store_insert sample_env;
     functions_invoke := fun _ => InvokeError;
     profiles_update := fun _ _ => true;
     profiles_select := fun _ => true |}.

End ChatBot.

(** ** Requests the proxy forwards *)

Module ProxyCases.
Import Proxy.

(** The request passes both guards of the handler with [message]: it is not
    a preflight, its body parses, [message] can be read from it and is
    truthy, and the credential is set. *)
Definition forwarded (env : Env) (req : Request) (message : jsval) : Prop :=
  jsstr_eqb (method req) (lit "OPTIONS") = false /\
  (exists parsed,
     req_json req = Normal parsed /\
     get (Val parsed) (lit "message") = Normal message) /\
  to_boolean message = true /\
  key_missing (openAIApiKey env) = false.

(** A completion whose first choice carries a tool call and no content. *)
Definition sample_completion_no_content : json :=
  JObj [ (lit "choices",
          JArr [ JObj [ (lit "message",
                         JObj [ (lit "role", JStr (lit "assistant")) ]) ] ]) ].

(** A 200 answer whose JSON has no choices at all. *)
Definition sample_upstream_no_choices : Upstream :=
  {| up_status := 200;
     up_text := Normal (lit "{}");
     up_json := Normal (JObj []) |}.

Definition sample_upstream_no_content : Upstream :=
  {| up_status := 200;
     up_text := Normal (lit "(completion)");
     up_json := Normal sample_completion_no_content |}.

(** Surroundings whose credential is set to the empty string. *)
Definition sample_env_empty_key : Env :=
  {| openAIApiKey := Some []; fetch := fun _ => Normal sample_upstream_ok |}.

Definition sample_request : Request :=
  post (Normal (JObj [ (lit "message", JStr sample_question) ])).




End ProxyCases.

(** ** The rest of the [ChatBot] component *)

Module ChatBotView.
Import ChatBot.

(** *** The keyboard *)

(** What [handleKeyPress] reads of a keyboard event. *)
Record KeyEvent : Type := {
  key : jsstr;
  shiftKey : bool
}.

(** [handleKeyPress]: whether [preventDefault] was called, and the session
    as the handler leaves it. [handleSendMessage] is called and not awaited,
    so the handler returns when that call reaches its first [await]. *)
Definition handleKeyPress (e : KeyEvent) (s : State) : bool * State :=
  if jsstr_eqb (key e) (lit "Enter") && negb (shiftKey e)
  then (true, send_start s)
  else (false, s).

(** What the user can do on the chat screen, and what the network does. *)
Inductive UiEvent : Type :=
| Session (i : Input)
| KeyPressed (e : KeyEvent).

Definition ui_step (ev : UiEvent) (s : State) : State :=
  match ev with
  | Session i => step i s
  | KeyPressed e => snd (handleKeyPress e s)
  end.

Definition ui_run (events : list UiEvent) (s : State) : State :=
  fold_left (fun acc ev => ui_step ev acc) events s.

(** A key press seen as session inputs: a press of send, or nothing. *)
Definition as_inputs (ev : UiEvent) : list Input :=
  match ev with
  | Session i => [i]
  | KeyPressed e =>
      if jsstr_eqb (key e) (lit "Enter") && negb (shiftKey e)
      then [SendPressed]
      else []
  end.

(** Whether a suspended call is still waiting for its user row. *)
Definition awaits_user_save (k : Suspended) : bool :=
  match k with
  | AwaitUserSave _ _ => true
  | _ => false
  end.

(** *** What is rendered *)

(** [email.split('@')[0]]. *)
Fixpoint before_at (s : jsstr) : jsstr :=
  match s with
  | [] => []
  | c :: rest => if c =? 0x40 then [] else c :: before_at rest
  end.

(** [x || 'User'] for a string [x]. *)
Definition or_user (x : jsstr) : jsstr :=
  if is_empty x then lit "User" else x.

(** [profile?.display_name || profile?.email?.split('@')[0] || 'User']. *)
Definition displayName (p : option Profile) : jsstr :=
  match p with
  | None => lit "User"
  | Some p =>
      match display_name p with
      | Some n => if is_empty n then or_user (before_at (email p)) else n
      | None => or_user (before_at (email p))
      end
  end.

(** The chat screen, rendered once [loadingMessages] is false.
    [messages.length === 0]: the greeting replaces the list. *)
Definition greeting_shown (s : State) : bool :=
  match messages s with
  | [] => true
  | _ :: _ => false
  end.

(** The "AI is thinking" row: [loading && ...], inside the branch that
    renders a list that is not empty. *)
Definition thinking_shown (s : State) : bool :=
  negb (greeting_shown s) && loading s.

(** [disabled={loading}] on the input. *)
Definition input_disabled (s : State) : bool := loading s.

(** [disabled={!inputValue.trim() || loading}] on the send button. *)
Definition send_disabled (s : State) : bool :=
  is_empty (trim (inputValue s)) || loading s.

(** *** Loading the history *)

(** The component with the flag behind its loading screen. *)
Record Screen : Type := {
  session : State;
  loadingMessages : bool
}.

(** The answer [{ data, error }] of the ordered [select] on [messages]. *)
Inductive select_result : Type :=
| Selected (data : option (list Message))
| SelectError.

Definition load_failed_toast : Toast :=
  {| title := lit "Error";
     description := lit "Failed to load chat history";
     destructive := true |}.

(** [data || []]. *)
Definition or_nil (data : option (list Message)) : list Message :=
  match data with
  | Some rows => rows
  | None => []
  end.

(** [loadMessages]: the view is replaced by the rows received, or a toast
    is raised; the [finally] block clears the flag. *)
Definition loadMessages (answer : select_result) (c : Screen) : Screen :=
  {| session :=
       match answer with
       | Selected data => setMessages (fun _ => or_nil data) (session c)
       | SelectError => toast load_failed_toast (session c)
       end;
     loadingMessages := false |}.

(** [loadProfile] on the component. *)
Definition loadProfile_on (env : Env) (c : Screen) : Screen :=
  {| session := loadProfile env (session c);
     loadingMessages := loadingMessages c |}.

(** The effect run when [user] changes: [if (user) { loadProfile();
    loadMessages(); }], the two loads settling in either order. A user is
    present when the session has a user id. *)
Definition on_user (profile_first : bool) (env : Env) (answer : select_result)
    (c : Screen) : Screen :=
  match user (session c) with
  | None => c
  | Some _ =>
      if profile_first
      then loadMessages answer (loadProfile_on env c)
      else loadProfile_on env (loadMessages answer c)
  end.

(** *** Growth of a session *)

(** The user a suspended call will write its row for. *)
Definition writes_for (uid : option jsstr) (k : Suspended) : Prop :=
  match k with
  | AwaitUserSave req _ => ins_user_id req = uid
  | AwaitInvoke _ => True
  | AwaitAssistantSave req => ins_user_id req = uid
  end.

(** [s'] is [s] with more history and nothing else of the data changed:
    rows, view entries, toasts and effects are only added at the end, and
    the user and the profile data are the same. *)
Definition grows (s s' : State) : Prop :=
  user s' = user s /\
  profile s' = profile s /\
  db_profiles s' = db_profiles s /\
  displayNameInput s' = displayNameInput s /\
  nameDialogOpen s' = nameDialogOpen s /\
  (exists rows, db_messages s' = db_messages s ++ rows) /\
  (exists shown, messages s' = messages s ++ shown) /\
  (exists raised, toasts s' = toasts s ++ raised) /\
  (exists events, trace s' = trace s ++ events).

(** The session [s] has stored, since [s0], exactly the rows it has shown,
    all of them for the user of [s0], and its suspended calls will write
    for that user too. *)
Definition mirrored (s0 s : State) : Prop :=
  user s = user s0 /\
  (exists rows,
     db_messages s = db_messages s0 ++ rows /\
     messages s = messages s0 ++ rows /\
     Forall (fun m => user_id m = user s0) rows) /\
  Forall (writes_for (user s0)) (pending s).

(** Every suspended call that is past its user row finds the view not
    empty. *)
Definition shown_before_waiting (s : State) : Prop :=
  Forall (fun k => awaits_user_save k = true \/ messages s <> [])
         (pending s).

(** How far a suspended call is from its end, in [await]s. *)
Definition awaits_left (k : Suspended) : nat :=
  match k with
  | AwaitUserSave _ _ => 3
  | AwaitInvoke _ => 2
  | AwaitAssistantSave _ => 1
  end.

Definition calls_left (s : State) : nat :=
  match pending s with
  | [] => 0
  | k :: _ => awaits_left k
  end.

(** *** More sample sessions *)

Definition plain_enter : KeyEvent := {| key := lit "Enter"; shiftKey := false |}.

Definition shift_enter : KeyEvent := {| key := lit "Enter"; shiftKey := true |}.

(** The user types a question, presses Enter, and the store accepts the
    user row: the call now awaits the proxy. *)
Definition sample_events : list UiEvent :=
  [ Session (Typed (lit "What is photosynthesis?"));
    KeyPressed plain_enter;
    Session (Settles 0 (InsertSettled
               (Inserted (lit "m-1") (lit "2025-01-01T10:00:00Z")))) ].

(** A store that refuses every write. *)
Definition sample_env_store_down : Env :=
  {| store_insert := fun _ => InsertError;
     functions_invoke := fun _ => Invoked sample_reply;
     profiles_update := fun _ _ => false;
     profiles_select := fun _ => false |}.

(** The sample session before its profile was loaded. *)
Definition sample_session_no_profile : State :=
  setProfile (fun _ => None) sample_session.

Definition sample_screen : Screen :=
  {| session := sample_session; loadingMessages := true |}.

End ChatBotView.

(** * Properties of the completion proxy *)

Module ProxyProofs.
Import Proxy.

Section Handler.

Variable env : Env.
Variable req : Request.

(** The handler unfolded on a request that is not a preflight. *)
Lemma serve_not_options :
  jsstr_eqb (method req) (lit "OPTIONS") = false ->
  serve env req =
    match try_block env req [] with
    | (Normal r, calls) => (Normal r, calls)
    | (Throw _, calls) => (Normal internal_error, calls)
    end.
Proof.
  intros Hm. unfold serve, handler, try_catch, ret. rewrite Hm. reflexivity.
Qed.

(** The [try] block as far as the two guards, for a body that parsed and
    whose [message] could be read. *)
Lemma try_block_parsed (parsed : json) (message : jsval) (calls : list FetchCall) :
  req_json req = Normal parsed ->
  get (Val parsed) (lit "message") = Normal message ->
  try_block env req calls =
    if negb (to_boolean message) then (Normal message_required, calls)
    else if key_missing (openAIApiKey env) then (Normal key_not_configured, calls)
    else
      match fetch env (completion_call env message) with
      | Throw e => (Throw e, calls ++ [completion_call env message])
      | Normal response =>
          if negb (ok response) then
            match up_text response with
            | Normal errorData =>
                (Normal (upstream_failed (up_status response) errorData),
                 calls ++ [completion_call env message])
            | Throw e => (Throw e, calls ++ [completion_call env message])
            end
          else
            match up_json response with
            | Throw e => (Throw e, calls ++ [completion_call env message])
            | Normal data =>
                match first_choice_content data with
                | Normal aiResponse =>
                    (Normal (generated aiResponse),
                     calls ++ [completion_call env message])
                | Throw e => (Throw e, calls ++ [completion_call env message])
                end
            end
      end.
Proof.
  intros Hp Hg. unfold try_block, bind, await. rewrite Hp. unfold ret at 1.
  rewrite Hg. unfold ret at 1.
  destruct (negb (to_boolean message)); [reflexivity|].
  destruct (key_missing (openAIApiKey env)); [reflexivity|].
  unfold do_fetch.
  destruct (fetch env (completion_call env message)) as [response|e]; [|reflexivity].
  destruct (negb (ok response)).
  - destruct (up_text response); reflexivity.
  - destruct (up_json response) as [data|e]; [|reflexivity].
    unfold ret at 1. destruct (first_choice_content data); reflexivity.
Qed.

(** A body that does not parse, or whose [message] cannot be read, ends the
    [try] block before anything else happens. *)
Lemma try_block_unparsed (e : exn) (calls : list FetchCall) :
  req_json req = Throw e ->
  try_block env req calls = (Throw e, calls).
Proof.
  intros Hp. unfold try_block, bind, await. rewrite Hp. reflexivity.
Qed.

Lemma try_block_unreadable (parsed : json) (e : exn) (calls : list FetchCall) :
  req_json req = Normal parsed ->
  get (Val parsed) (lit "message") = Throw e ->
  try_block env req calls = (Throw e, calls).
Proof.
  intros Hp Hg. unfold try_block, bind, await. rewrite Hp. unfold ret at 1.
  rewrite Hg. reflexivity.
Qed.

(** The [try] block never hands back more than one outbound call, and
    always some outcome. *)
Lemma try_block_outcome :
  exists (c : completion Response) (calls : list FetchCall),
    try_block env req [] = (c, calls) /\ (List.length calls <= 1)%nat.
Proof.
  destruct (req_json req) as [parsed|e] eqn:Hp.
  - destruct (get (Val parsed) (lit "message")) as [message|e] eqn:Hg.
    + rewrite (try_block_parsed parsed message [] Hp Hg).
      destruct (negb (to_boolean message)); [eexists; eexists; split; [reflexivity|simpl; lia]|].
      destruct (key_missing (openAIApiKey env)); [eexists; eexists; split; [reflexivity|simpl; lia]|].
      destruct (fetch env (completion_call env message)) as [response|e];
        [|eexists; eexists; split; [reflexivity|simpl; lia]].
      destruct (negb (ok response)).
      * destruct (up_text response); eexists; eexists; (split; [reflexivity|simpl; lia]).
      * destruct (up_json response) as [data|e];
          [|eexists; eexists; split; [reflexivity|simpl; lia]].
        destruct (first_choice_content data);
          eexists; eexists; (split; [reflexivity|simpl; lia]).
    + rewrite (try_block_unreadable parsed e [] Hp Hg).
      eexists; eexists; split; [reflexivity|simpl; lia].
  - rewrite (try_block_unparsed e [] Hp).
    eexists; eexists; split; [reflexivity|simpl; lia].
Qed.

End Handler.

(** C3 as stated fails: a body that is the JSON value [null] carries no
    message, yet it is not answered 400. Reading [message] from it throws,
    and the answer is the generic 500. *)
Lemma null_body_not_answered_400 :
  serve (sample_env (Normal sample_upstream_ok)) (post (Normal JNull))
    = (Normal internal_error, []) /\
  status internal_error = 500 /\
  status internal_error <> 400.
Proof.
  split; [reflexivity|]. split; [reflexivity | discriminate].
Qed.

(** C3, amended. For a request whose body parses to a JSON value other than
    [null], [message] can be read; when it is missing ([undefined]) or the
    empty string, the request is answered with status 400 and the body
    [{"error": "Message is required"}], and no outbound call is made. *)
Theorem empty_message_rejected (env : Env) (req : Request) (parsed : json) :
  jsstr_eqb (method req) (lit "OPTIONS") = false ->
  req_json req = Normal parsed ->
  parsed <> JNull ->
  (exists message, get (Val parsed) (lit "message") = Normal message) /\
  (get (Val parsed) (lit "message") = Normal Undefined \/
   get (Val parsed) (lit "message") = Normal (Val (JStr [])) ->
   serve env req = (Normal message_required, []) /\
   status message_required = 400 /\
   body message_required =
     Some (JObj [ (lit "error", JStr (lit "Message is required")) ])).
Proof.
  intros Hm Hp Hnull. split.
  - destruct parsed as [ | b | x | str | items | props ];
      [contradiction | | | | | ]; eexists; reflexivity.
  - intros Hempty.
    split; [|split; reflexivity].
    rewrite (serve_not_options env req Hm).
    destruct Hempty as [Hg | Hg];
      rewrite (try_block_parsed env req parsed _ [] Hp Hg); reflexivity.
Qed.

Lemma empty_message_rejected_witness :
  serve (sample_env (Normal sample_upstream_ok))
        (post (Normal (JObj [ (lit "message", JStr (lit "")) ])))
  = (Normal message_required, []).
Proof.
  refine (proj1 (proj2 (empty_message_rejected
           (sample_env (Normal sample_upstream_ok))
           (post (Normal (JObj [ (lit "message", JStr (lit "")) ])))
           (JObj [ (lit "message", JStr (lit "")) ]) _ _ _) _)).
  - reflexivity.
  - reflexivity.
  - discriminate.
  - right. reflexivity.
Defined.





(** C7. When the external completion API answers outside 200..299 and its
    body can be read, the response is 500 with the members [error] and
    [details], the latter made of the upstream status in decimal and the
    upstream body. *)
Theorem upstream_failure_reported (env : Env) (req : Request)
    (parsed : json) (message : jsval) (up : Upstream) (errorData : jsstr) :
  jsstr_eqb (method req) (lit "OPTIONS") = false ->
  req_json req = Normal parsed ->
  get (Val parsed) (lit "message") = Normal message ->
  to_boolean message = true ->
  key_missing (openAIApiKey env) = false ->
  fetch env (completion_call env message) = Normal up ->
  ok up = false ->
  up_text up = Normal errorData ->
  serve env req =
    (Normal {| status := 500;
               headers := json_headers;
               body := Some (JObj
                 [ (lit "error", JStr (lit "Failed to get response from AI"));
                   (lit "details",
                    JStr (lit "OpenAI API returned " ++ decimal (up_status up)
                          ++ lit ": " ++ errorData)) ]) |},
     [completion_call env message]).
Proof.
  intros Hm Hp Hg Ht Hk Hf Hok Htext.
  rewrite (serve_not_options env req Hm).
  rewrite (try_block_parsed env req parsed message [] Hp Hg).
  rewrite Ht, Hk, Hf, Hok, Htext. reflexivity.
Qed.

Lemma upstream_failure_reported_witness :
  serve (sample_env (Normal sample_upstream_limited))
        (post (Normal (JObj [ (lit "message", JStr sample_question) ])))
  = (Normal {| status := 500;
               headers := json_headers;
               body := Some (JObj
                 [ (lit "error", JStr (lit "Failed to get response from AI"));
                   (lit "details",
                    JStr (lit "OpenAI API returned 429: rate limit exceeded")) ]) |},
     [completion_call (sample_env (Normal sample_upstream_limited))
        (Val (JStr sample_question))]).
Proof.
  apply (upstream_failure_reported
           (sample_env (Normal sample_upstream_limited))
           (post (Normal (JObj [ (lit "message", JStr sample_question) ])))
           (JObj [ (lit "message", JStr sample_question) ])
           (Val (JStr sample_question))
           sample_upstream_limited
           (lit "rate limit exceeded"));
    reflexivity.
Defined.

(** C8. The handler always returns a response and never throws; whenever the
    [try] block of a request other than a preflight throws, whatever the
    exception (the body does not parse, the network fails, the upstream
    answer cannot be read or lacks a choice), the response is 500 with the
    body [{"error": "Internal server error"}]. *)
Theorem handler_total (env : Env) (req : Request) :
  (exists (r : Response) (calls : list FetchCall),
     serve env req = (Normal r, calls)) /\
  (forall (e : exn) (calls : list FetchCall),
     jsstr_eqb (method req) (lit "OPTIONS") = false ->
     try_block env req [] = (Throw e, calls) ->
     serve env req = (Normal internal_error, calls) /\
     status internal_error = 500 /\
     body internal_error =
       Some (JObj [ (lit "error", JStr (lit "Internal server error")) ])).
Proof.
  split.
  - destruct (jsstr_eqb (method req) (lit "OPTIONS")) eqn:Hm.
    + exists preflight, []. unfold serve, handler. rewrite Hm. reflexivity.
    + rewrite (serve_not_options env req Hm).
      destruct (try_block env req []) as [[r|e] calls]; eexists; eexists; reflexivity.
  - intros e calls Hm Ht.
    rewrite (serve_not_options env req Hm), Ht.
    repeat split.
Qed.

Lemma handler_total_witness :
  serve (sample_env (Normal sample_upstream_html))
        (post (Normal (JObj [ (lit "message", JStr sample_question) ])))
  = (Normal internal_error,
     [completion_call (sample_env (Normal sample_upstream_html))
        (Val (JStr sample_question))]).
Proof.
  apply (proj2 (handler_total _ _) SyntaxError); reflexivity.
Defined.

(** C10. A request whose body does not parse as JSON never reaches the 400
    branch: no response to it has status 400, and unless it is a preflight
    it is answered 500 with [{"error": "Internal server error"}], without
    any outbound call. *)
Theorem unparsable_body_internal_error (env : Env) (req : Request) (e : exn) :
  req_json req = Throw e ->
  (forall (r : Response) (calls : list FetchCall),
     serve env req = (Normal r, calls) -> status r <> 400) /\
  (jsstr_eqb (method req) (lit "OPTIONS") = false ->
   serve env req = (Normal internal_error, []) /\
   status internal_error = 500 /\
   body internal_error =
     Some (JObj [ (lit "error", JStr (lit "Internal server error")) ])).
Proof.
  intros Hp.
  assert (Hs : jsstr_eqb (method req) (lit "OPTIONS") = false ->
               serve env req = (Normal internal_error, [])).
  { intros Hm. rewrite (serve_not_options env req Hm).
    rewrite (try_block_unparsed env req e [] Hp). reflexivity. }
  split.
  - intros r calls Hr.
    destruct (jsstr_eqb (method req) (lit "OPTIONS")) eqn:Hm.
    + unfold serve, handler, ret in Hr. rewrite Hm in Hr.
      injection Hr as <- _. discriminate.
    + rewrite (Hs eq_refl) in Hr. injection Hr as <- _. discriminate.
  - intros Hm. repeat split. exact (Hs Hm).
Qed.

Lemma unparsable_body_internal_error_witness :
  serve (sample_env (Normal sample_upstream_ok)) (post (Throw SyntaxError))
  = (Normal internal_error, []).
Proof.
  apply (proj2 (unparsable_body_internal_error
                  (sample_env (Normal sample_upstream_ok))
                  (post (Throw SyntaxError)) SyntaxError eq_refl)).
  reflexivity.
Defined.

End ProxyProofs.

(** * Properties of the conversation controller *)

Module ChatBotProofs.
Import ChatBot.

#[local] Arguments lit : simpl never.
#[local] Arguments trim : simpl never.
#[local] Arguments get : simpl never.
#[local] Arguments invoke_body : simpl never.

Ltac unfold_send :=
  unfold handleSendMessage, send_try, bind, modify, await, invoke_chatbot,
    saveMessage, send_failed, show, user_request.

Ltac send_cbn :=
  cbv [user messages inputValue loading profile displayNameInput
       nameDialogOpen toasts db_messages db_profiles pending trace
       setInputValue setLoading setMessages toast db_append set_pending emit
       show suspend send_failed insert_req stored_row answer send_resume
       nth_error remove_nth app ins_role ins_content ins_user_id step
       user_request settle_next].

Section OneCall.

Variable env : Env.
Variable s : State.

Let userMessage : jsstr := trim (inputValue s).
Let started : State :=
  emit [InsertRequested (user_request s)] (setLoading true (setInputValue [] s)).
Let user_saved (u : Message) : State :=
  emit [ProxyInvoked (invoke_body userMessage)]
    (show u (emit [Stored u] (db_append u started))).

(** [handleSendMessage] on an accepted submission, by the answers of the
    outside world. *)
Lemma handleSendMessage_accepted :
  accepted s ->
  handleSendMessage env s =
    match store_insert env (user_request s) with
    | InsertError => send_failed started
    | Inserted new_id timestamp =>
        let u := stored_row (user_request s) new_id timestamp in
        match functions_invoke env (invoke_body userMessage) with
        | InvokeError => send_failed (user_saved u)
        | Invoked data =>
            match get data (lit "response") with
            | Throw _ => send_failed (user_saved u)
            | Normal assistantResponse =>
                let req := insert_req s RAssistant assistantResponse in
                match store_insert env req with
                | InsertError =>
                    send_failed (emit [InsertRequested req] (user_saved u))
                | Inserted new_id' timestamp' =>
                    let a := stored_row req new_id' timestamp' in
                    setLoading false
                      (show a (emit [Stored a]
                         (db_append a (emit [InsertRequested req] (user_saved u)))))
                end
            end
        end
    end.
Proof.
  intros [Hne Hl]. subst userMessage started user_saved.
  unfold_send. rewrite Hne, Hl. cbn [orb].
  unfold insert_req at 1 2. cbn [user setLoading setInputValue].
  change (insert_req s RUser (Val (JStr (trim (inputValue s)))))
    with {| ins_user_id := user s; ins_role := RUser;
            ins_content := Val (JStr (trim (inputValue s))) |}.
  destruct (store_insert env _) as [new_id timestamp|]; [|reflexivity].
  cbn zeta.
  destruct (functions_invoke env _) as [data|]; [|reflexivity].
  destruct (get data (lit "response")) as [assistantResponse|e]; [|reflexivity].
  unfold insert_req. cbn [user setLoading setInputValue emit db_append setMessages].
  destruct (store_insert env _) as [new_id' timestamp'|]; reflexivity.
Qed.

(** A rejected submission changes nothing. *)
Lemma handleSendMessage_rejected :
  is_empty (trim (inputValue s)) = true \/ loading s = true ->
  handleSendMessage env s = s.
Proof.
  intros H. unfold handleSendMessage.
  destruct H as [-> | ->]; [reflexivity|].
  rewrite orb_true_r. reflexivity.
Qed.

(** What an accepted call leaves behind, by its outcome. *)
Lemma handleSendMessage_outcome :
  accepted s ->
  trace (handleSendMessage env s) = trace s ++ outcome_events s (outcome env s) /\
  db_messages (handleSendMessage env s) =
    db_messages s ++ outcome_rows (outcome env s) /\
  messages (handleSendMessage env s) =
    messages s ++ outcome_rows (outcome env s) /\
  toasts (handleSendMessage env s) =
    toasts s ++ outcome_toasts (outcome env s) /\
  loading (handleSendMessage env s) = false /\
  inputValue (handleSendMessage env s) = [].
Proof.
  intros Hacc. rewrite (handleSendMessage_accepted Hacc). unfold outcome.
  subst userMessage started user_saved.
  destruct (store_insert env (user_request s)) as [new_id timestamp|].
  2:{ cbn. rewrite !app_nil_r. repeat split. }
  cbn zeta.
  destruct (functions_invoke env _) as [data|].
  2:{ cbn. rewrite <- !app_assoc. repeat split. }
  destruct (get data (lit "response")) as [assistantResponse|e].
  2:{ cbn. rewrite <- !app_assoc. repeat split. }
  destruct (store_insert env _) as [new_id' timestamp'|].
  - cbn. rewrite <- !app_assoc, !app_nil_r. repeat split.
  - cbn. rewrite <- !app_assoc. repeat split.
Qed.

End OneCall.

Lemma settle_next_idle (env : Env) (s' : State) :
  pending s' = [] -> settle_next env s' = s'.
Proof. intros H. unfold settle_next. rewrite H. reflexivity. Qed.

(** The handler run to completion leaves the suspended calls, the user and
    the profile data alone. *)
Lemma handleSendMessage_frame (env : Env) (s : State) :
  pending (handleSendMessage env s) = pending s /\
  user (handleSendMessage env s) = user s /\
  db_profiles (handleSendMessage env s) = db_profiles s /\
  profile (handleSendMessage env s) = profile s.
Proof.
  destruct (is_empty (trim (inputValue s)) || loading s) eqn:Hguard.
  - unfold handleSendMessage. rewrite Hguard. repeat split.
  - apply orb_false_elim in Hguard.
    rewrite (handleSendMessage_accepted env s Hguard).
    destruct (store_insert env _); [|repeat split].
    cbn zeta.
    destruct (functions_invoke env _) as [data|]; [|repeat split].
    destruct (get data (lit "response")); [|repeat split].
    destruct (store_insert env _); repeat split.
Qed.

(** Run alone, the handler taken one [await] at a time does what the
    handler run to completion does, and no call is left suspended. *)
Lemma send_alone_handleSendMessage (env : Env) (s : State) :
  pending s = [] ->
  send_alone env s = handleSendMessage env s /\
  pending (send_alone env s) = [].
Proof.
  intros Hp.
  assert (E : send_alone env s = handleSendMessage env s).
  { destruct (is_empty (trim (inputValue s)) || loading s) eqn:Hguard.
    - unfold send_alone, step, send_start, handleSendMessage.
      rewrite Hguard. rewrite !(settle_next_idle env s Hp). reflexivity.
    - apply orb_false_elim in Hguard. destruct Hguard as [Hne Hl].
      rewrite (handleSendMessage_accepted env s (conj Hne Hl)).
      unfold send_alone, step, send_start, user_request. rewrite Hne, Hl. cbn [orb].
      destruct s as [u ms iv ld pf dn nd ts dbm dbp pd tr].
      cbn in Hp. subst pd. send_cbn.
      destruct (store_insert env _) as [new_id timestamp|]; [|reflexivity].
      destruct (functions_invoke env _) as [data|]; [|reflexivity].
      destruct (get data (lit "response")) as [assistantResponse|e];
        [|reflexivity].
      destruct (store_insert env _) as [new_id' timestamp'|]; reflexivity. }
  split; [exact E|].
  rewrite E. rewrite (proj1 (handleSendMessage_frame env s)). exact Hp.
Qed.

Lemma jsstr_eqb_refl (a : jsstr) : jsstr_eqb a a = true.
Proof.
  induction a as [|c a IH]; [reflexivity|].
  cbn. rewrite N.eqb_refl. exact IH.
Qed.

Lemma app_eq_self_nil {A} (l l' : list A) : l ++ l' = l -> l' = [].
Proof.
  intros H. apply (app_inv_head l). rewrite app_nil_r. exact H.
Qed.

(** A completed call stored a user row and then an assistant row, both under
    the session's user, and its effects are those of a round trip. *)
Lemma outcome_completed (env : Env) (s : State) (u a : Message) :
  outcome env s = Completed u a ->
  turn_of (user s) (trim (inputValue s), u, a) /\
  content u = Val (JStr (trim (inputValue s))) /\
  outcome_events s (Completed u a) = round_trip_events (trim (inputValue s)) u a.
Proof.
  unfold outcome.
  destruct (store_insert env (user_request s)) as [new_id timestamp|];
    [|discriminate].
  cbn zeta.
  destruct (functions_invoke env _) as [data|]; [|discriminate].
  destruct (get data (lit "response")) as [c|e]; [|discriminate].
  destruct (store_insert env _) as [new_id' timestamp'|]; [|discriminate].
  intros H. injection H as <- <-. repeat split.
Qed.

(** An accepted call that raises no toast is a completed one. *)
Lemma quiet_call_completed (env : Env) (s : State) :
  accepted s ->
  toasts (handleSendMessage env s) = toasts s ->
  exists u a, outcome env s = Completed u a.
Proof.
  intros Hacc Hquiet.
  destruct (handleSendMessage_outcome env s Hacc) as (_ & _ & _ & Ht & _).
  rewrite Ht in Hquiet. apply app_eq_self_nil in Hquiet.
  destruct (outcome env s) as [ | u | u c | u a]; try discriminate.
  exists u, a. reflexivity.
Qed.

Lemma turn_rows_length (turns : list Turn) :
  List.length (flat_map turn_rows turns) = (2 * List.length turns)%nat.
Proof.
  induction turns as [|[[m u] a] turns IH]; [reflexivity|].
  cbn [flat_map turn_rows List.length app]. rewrite IH. lia.
Qed.

Lemma turn_rows_same_user (uid : jsstr) (turns : list Turn) :
  Forall (turn_of (Some uid)) turns ->
  filter (same_user (Some uid)) (flat_map turn_rows turns) =
  flat_map turn_rows turns.
Proof.
  induction 1 as [|[[m u] a] turns (_ & _ & Hu & Ha) _ IH]; [reflexivity|].
  cbn [flat_map turn_rows app filter]. unfold same_user at 1 2.
  rewrite Hu, Ha, jsstr_eqb_refl. rewrite IH. reflexivity.
Qed.

(** A session of successful round trips, turn by turn. *)
Lemma round_trips_turns (subs : list (Env * jsstr)) :
  forall s : State,
    round_trips subs s ->
    exists turns : list Turn,
      List.length turns = List.length subs /\
      db_messages (submit_all subs s) = db_messages s ++ flat_map turn_rows turns /\
      messages (submit_all subs s) = messages s ++ flat_map turn_rows turns /\
      trace (submit_all subs s) = trace s ++ flat_map turn_events turns /\
      Forall (turn_of (user s)) turns.
Proof.
  induction subs as [|[env text] rest IH]; intros s Hall.
  - exists []. cbn. rewrite !app_nil_r. repeat split. constructor.
  - destruct Hall as [[Hacc Hquiet] Hrest].
    unfold submit in Hquiet.
    destruct (quiet_call_completed env _ Hacc Hquiet) as (u & a & Ho).
    destruct (handleSendMessage_outcome env _ Hacc) as (Ht & Hdb & Hv & _).
    destruct (outcome_completed env _ u a Ho) as (Hturn & _ & Hev).
    rewrite Ho in Ht, Hdb, Hv. rewrite Hev in Ht.
    destruct (IH _ Hrest) as (turns & Hlen & Hdb' & Hv' & Ht' & Hall').
    exists ((trim text, u, a) :: turns).
    cbn [submit_all]. unfold submit in *.
    rewrite Hdb', Hv', Ht', Hdb, Hv, Ht.
    rewrite (proj1 (proj2 (handleSendMessage_frame env _))) in Hall'.
    cbn [flat_map turn_rows turn_events List.length outcome_rows].
    rewrite <- !app_assoc.
    repeat split; try reflexivity.
    + cbn. rewrite Hlen. reflexivity.
    + constructor; assumption.
Qed.

Lemma send_resume_ready_or_sending (k : Suspended) (r : Settled) (s s' : State) :
  loading s = true ->
  pending s = [] ->
  send_resume k r s = Some s' ->
  ready_or_sending s'.
Proof.
  intros Hl Hp Hr.
  destruct k as [req userMessage | body | req];
    destruct r as [[new_id timestamp|] | [data|]]; cbn in Hr; try discriminate.
  - injection Hr as <-. right. cbn. rewrite Hl, Hp. split; [reflexivity | eexists; reflexivity].
  - injection Hr as <-. left. cbn. rewrite Hp. split; reflexivity.
  - destruct (get data (lit "response")) as [c|e]; injection Hr as <-.
    + right. cbn. rewrite Hl, Hp. split; [reflexivity | eexists; reflexivity].
    + left. cbn. rewrite Hp. split; reflexivity.
  - injection Hr as <-. left. cbn. rewrite Hp. split; reflexivity.
  - injection Hr as <-. left. cbn. rewrite Hp. split; reflexivity.
  - injection Hr as <-. left. cbn. rewrite Hp. split; reflexivity.
Qed.

Lemma step_ready_or_sending (i : Input) (s : State) :
  ready_or_sending s -> ready_or_sending (step i s).
Proof.
  intros Hinv. destruct i as [text | | n r]; cbn [step].
  - exact Hinv.
  - unfold send_start.
    destruct (is_empty (trim (inputValue s)) || loading s) eqn:Hguard;
      [exact Hinv|].
    apply orb_false_elim in Hguard. destruct Hguard as [_ Hl].
    destruct Hinv as [[_ Hp] | [Hl' _]]; [|congruence].
    right. cbn. rewrite Hp. split; [reflexivity | eexists; reflexivity].
  - destruct Hinv as [[Hl Hp] | [Hl [k Hp]]].
    + rewrite Hp. destruct n; cbn; left; auto.
    + rewrite Hp. destruct n as [|n].
      * cbn [nth_error remove_nth].
        destruct (send_resume k r (set_pending [] s)) as [s'|] eqn:Hr.
        -- apply (send_resume_ready_or_sending k r (set_pending [] s) s');
             [exact Hl | reflexivity | exact Hr].
        -- right. eauto.
      * destruct n; cbn; right; eauto.
Qed.

Lemma run_ready_or_sending (inputs : list Input) :
  forall s : State, ready_or_sending s -> ready_or_sending (run inputs s).
Proof.
  induction inputs as [|i inputs IH]; intros s Hinv; [exact Hinv|].
  cbn [run fold_left]. apply IH. apply step_ready_or_sending. exact Hinv.
Qed.

Lemma overwrite_name_twice (uid : option jsstr) (name : jsstr) (p : Profile) :
  overwrite_name uid name (overwrite_name uid name p) = overwrite_name uid name p.
Proof.
  unfold overwrite_name.
  destruct (id_matches uid (profile_id p)) eqn:Hid; cbn; rewrite Hid; reflexivity.
Qed.

Lemma overwrite_name_matching (uid : option jsstr) (name : jsstr) (p : Profile) :
  id_matches uid (profile_id p) = true ->
  overwrite_name uid name p = with_display_name name p.
Proof. intros H. unfold overwrite_name. rewrite H. reflexivity. Qed.

Lemma overwrite_name_id (uid : option jsstr) (name : jsstr) (p : Profile) :
  profile_id (overwrite_name uid name p) = profile_id p.
Proof.
  unfold overwrite_name. destruct (id_matches uid (profile_id p)); reflexivity.
Qed.

(** The update does not change which rows the user's query selects. *)
Lemma filter_overwrite_name (uid : option jsstr) (name : jsstr) (ps : list Profile) :
  filter (fun p => id_matches uid (profile_id p)) (map (overwrite_name uid name) ps) =
  map (with_display_name name)
      (filter (fun p => id_matches uid (profile_id p)) ps).
Proof.
  induction ps as [|p ps IH]; [reflexivity|].
  cbn [map filter]. rewrite overwrite_name_id.
  destruct (id_matches uid (profile_id p)) eqn:Hid.
  - cbn [map]. rewrite IH, (overwrite_name_matching uid name p Hid). reflexivity.
  - exact IH.
Qed.

(** [updateDisplayName] when the name is valid and the store accepts it. *)
Lemma updateDisplayName_stored (env : Env) (s : State) :
  is_empty (trim (displayNameInput s)) = false ->
  profiles_update env (user s) (trim (displayNameInput s)) = true ->
  db_profiles (updateDisplayName env s) =
    map (overwrite_name (user s) (trim (displayNameInput s))) (db_profiles s) /\
  profile (updateDisplayName env s) =
    match profile s with
    | Some p => Some (with_display_name (trim (displayNameInput s)) p)
    | None => None
    end /\
  user (updateDisplayName env s) = user s /\
  displayNameInput (updateDisplayName env s) = displayNameInput s /\
  nameDialogOpen (updateDisplayName env s) = false.
Proof.
  intros Hne Hok. unfold updateDisplayName. rewrite Hne. cbn zeta.
  rewrite Hok. repeat split.
Qed.

(** [updateDisplayName] when the name is valid and the store refuses. *)
Lemma updateDisplayName_refused (env : Env) (s : State) :
  is_empty (trim (displayNameInput s)) = false ->
  profiles_update env (user s) (trim (displayNameInput s)) = false ->
  db_profiles (updateDisplayName env s) = db_profiles s /\
  profile (updateDisplayName env s) = profile s /\
  user (updateDisplayName env s) = user s /\
  displayNameInput (updateDisplayName env s) = displayNameInput s.
Proof.
  intros Hne Hok. unfold updateDisplayName. rewrite Hne. cbn zeta.
  rewrite Hok. repeat split.
Qed.

(** C1. Once the user turn is stored, a failure of the proxy invocation (an
    error answer, or an answer without data to read [response] from) or of
    the assistant insert leaves exactly the user turn behind: it is the only
    new row of the store and the only new entry of the view, the error toast
    is raised once, [loading] is cleared, nothing stays suspended, and
    nothing is requested a second time. *)
Theorem send_failure_keeps_user_turn (env : Env) (s : State)
    (new_id timestamp : jsstr) :
  accepted s ->
  pending s = [] ->
  store_insert env (user_request s) = Inserted new_id timestamp ->
  (functions_invoke env (invoke_body (trim (inputValue s))) = InvokeError \/
   (exists data e,
      functions_invoke env (invoke_body (trim (inputValue s))) = Invoked data /\
      get data (lit "response") = Throw e) \/
   (exists data c,
      functions_invoke env (invoke_body (trim (inputValue s))) = Invoked data /\
      get data (lit "response") = Normal c /\
      store_insert env (insert_req s RAssistant c) = InsertError)) ->
  let u := stored_row (user_request s) new_id timestamp in
  let s' := handleSendMessage env s in
  role u = RUser /\
  db_messages s' = db_messages s ++ [u] /\
  messages s' = messages s ++ [u] /\
  toasts s' = toasts s ++ [send_failed_toast] /\
  loading s' = false /\
  send_alone env s = s' /\
  pending s' = [] /\
  exists attempt,
    trace s' =
      trace s ++ [ InsertRequested (user_request s); Stored u; Shown u;
                   ProxyInvoked (invoke_body (trim (inputValue s))) ] ++ attempt /\
    (attempt = [] \/
     exists c, attempt = [ InsertRequested (insert_req s RAssistant c) ]).
Proof.
  intros Hacc Hidle Huser Hfail u s'.
  destruct (handleSendMessage_outcome env s Hacc)
    as (Htrace & Hdb & Hview & Htoasts & Hloading & _).
  destruct (send_alone_handleSendMessage env s Hidle) as [Halone Hpending].
  assert (Ho : outcome env s = ProxyFailed u \/
               exists c, outcome env s = AssistantSaveFailed u c).
  { unfold outcome. rewrite Huser. cbn zeta. fold u.
    destruct Hfail as [Hi | [(data & e & Hi & Hg) | (data & c & Hi & Hg & Ha)]].
    - rewrite Hi. left. reflexivity.
    - rewrite Hi, Hg. left. reflexivity.
    - rewrite Hi, Hg, Ha. right. exists c. reflexivity. }
  fold s' in Htrace, Hdb, Hview, Htoasts, Hloading, Halone, Hpending.
  split; [reflexivity|].
  destruct Ho as [Ho | [c Ho]]; rewrite Ho in *; cbn in *;
    (repeat split; try assumption).
  - rewrite <- Halone. exact Hpending.
  - exists []. split; [exact Htrace | left; reflexivity].
  - rewrite <- Halone. exact Hpending.
  - eexists. split; [exact Htrace | right; exists c; reflexivity].
Qed.

Lemma send_failure_keeps_user_turn_witness :
  db_messages (handleSendMessage sample_env_proxy_down
                 (setInputValue (lit "What is photosynthesis?") sample_session))
  = [ stored_row
        (user_request (setInputValue (lit "What is photosynthesis?") sample_session))
        (lit "m-1") (lit "2025-01-01T10:00:00Z") ].
Proof.
  refine (proj1 (proj2
    (send_failure_keeps_user_turn sample_env_proxy_down
       (setInputValue (lit "What is photosynthesis?") sample_session)
       (lit "m-1") (lit "2025-01-01T10:00:00Z") _ _ _ _))).
  - split; reflexivity.
  - reflexivity.
  - reflexivity.
  - left. reflexivity.
Defined.

(** C2. In a session of N successful round trips, each round trip happens
    in causal order: the user insert is requested, the row is stored and
    shown, only then is the proxy invoked, and the assistant row is stored
    before it is shown. Each round trip adds its user row and then its
    assistant row, so the store holds exactly 2N more messages, all of them
    of the session's user. *)
Theorem successful_round_trips (subs : list (Env * jsstr)) (s : State) :
  round_trips subs s ->
  List.length (db_messages (submit_all subs s)) =
    (List.length (db_messages s) + 2 * List.length subs)%nat /\
  (forall uid, user s = Some uid ->
     List.length (stored_for (Some uid) (submit_all subs s)) =
       (List.length (stored_for (Some uid) s) + 2 * List.length subs)%nat) /\
  exists turns : list Turn,
    List.length turns = List.length subs /\
    db_messages (submit_all subs s) = db_messages s ++ flat_map turn_rows turns /\
    messages (submit_all subs s) = messages s ++ flat_map turn_rows turns /\
    trace (submit_all subs s) = trace s ++ flat_map turn_events turns /\
    Forall (turn_of (user s)) turns.
Proof.
  intros Hall.
  destruct (round_trips_turns subs s Hall) as (turns & Hlen & Hdb & Hv & Ht & Hturns).
  split; [|split].
  - rewrite Hdb, length_app, turn_rows_length, Hlen. reflexivity.
  - intros uid Huid. unfold stored_for. rewrite Hdb, filter_app, length_app.
    rewrite Huid in Hturns.
    rewrite (turn_rows_same_user uid turns Hturns), turn_rows_length, Hlen.
    reflexivity.
  - exists turns. repeat split; assumption.
Qed.

Lemma successful_round_trips_witness :
  List.length (db_messages
    (submit_all [ (sample_env, lit "What is photosynthesis?");
                  (sample_env, lit "  And respiration? ") ] sample_session))
  = 4%nat.
Proof.
  refine (proj1 (successful_round_trips
    [ (sample_env, lit "What is photosynthesis?");
      (sample_env, lit "  And respiration? ") ] sample_session _)).
  vm_compute. repeat split.
Defined.

(** C5. Whatever the user types and presses and in whatever order the
    awaited promises settle, a session that starts ready never has more
    than one call of [handleSendMessage] suspended, and it is loading
    exactly while one is. Pressing send while loading, or with an input that
    is empty once trimmed, leaves the whole state as it was: no row stored,
    no proxy call, no change of the view. *)
Theorem one_submission_in_flight (s0 : State) (inputs : list Input) :
  loading s0 = false ->
  pending s0 = [] ->
  let s := run inputs s0 in
  (List.length (pending s) <= 1)%nat /\
  (loading s = true <-> pending s <> []) /\
  (loading s = true \/ is_empty (trim (inputValue s)) = true ->
   step SendPressed s = s /\
   forall env, handleSendMessage env s = s).
Proof.
  intros Hl Hp s.
  assert (Hinv : ready_or_sending s).
  { apply run_ready_or_sending. left. auto. }
  split; [|split].
  - destruct Hinv as [[_ ->] | [_ [k ->]]]; cbn; lia.
  - destruct Hinv as [[Hl' Hp'] | [Hl' [k Hp']]]; rewrite Hl', Hp'; split;
      congruence.
  - intros Hrej. split.
    + cbn [step]. unfold send_start.
      destruct Hrej as [-> | ->]; [rewrite orb_true_r|]; reflexivity.
    + intros env. apply handleSendMessage_rejected. tauto.
Qed.

Lemma one_submission_in_flight_witness :
  step SendPressed
    (run [ Typed (lit "What is photosynthesis?"); SendPressed;
           Typed (lit "And respiration?") ] sample_session)
  = run [ Typed (lit "What is photosynthesis?"); SendPressed;
          Typed (lit "And respiration?") ] sample_session.
Proof.
  refine (proj1 (proj2 (proj2
    (one_submission_in_flight sample_session
       [ Typed (lit "What is photosynthesis?"); SendPressed;
         Typed (lit "And respiration?") ] _ _)) _)).
  - reflexivity.
  - reflexivity.
  - left. reflexivity.
Defined.

(** C6 as stated fails: the text entered is not forwarded as entered. With
    the input ["  hi "] the proxy receives ["hi"], the stored user turn
    holds ["hi"], and nothing carries the text with its blanks. *)
Lemma raw_text_not_forwarded :
  let s' := submit sample_env (lit "  hi ") sample_session in
  In (ProxyInvoked (invoke_body (lit "hi"))) (trace s') /\
  ~ In (ProxyInvoked (invoke_body (lit "  hi "))) (trace s') /\
  map content (db_messages s') =
    [ Val (JStr (lit "hi")); Val (JStr (lit "Plants turn light into sugar.")) ] /\
  Val (JStr (lit "hi")) <> Val (JStr (lit "  hi ")).
Proof.
  vm_compute. repeat split.
  - right. right. right. left. reflexivity.
  - intros [H | [H | [H | [H | [H | [H | [H | []]]]]]]]; discriminate.
  - discriminate.
Qed.

(** C6, amended. For every accepted submission, each proxy invocation of
    the call carries as [message] the entered text with its leading and
    trailing white space removed, and each user row stored by the call has
    that same trimmed text as content; when the user insert succeeds, the
    row is stored and the proxy is invoked. *)
Theorem trimmed_text_forwarded (env : Env) (s : State) :
  accepted s ->
  exists events : list Event,
    trace (handleSendMessage env s) = trace s ++ events /\
    (forall body, In (ProxyInvoked body) events ->
       body = JObj [ (lit "message", JStr (trim (inputValue s))) ]) /\
    (forall row, In (Stored row) events -> role row = RUser ->
       content row = Val (JStr (trim (inputValue s)))) /\
    (forall new_id timestamp,
       store_insert env (user_request s) = Inserted new_id timestamp ->
       In (ProxyInvoked (JObj [ (lit "message", JStr (trim (inputValue s))) ]))
          events /\
       In (Stored (stored_row (user_request s) new_id timestamp)) events).
Proof.
  intros Hacc.
  destruct (handleSendMessage_outcome env s Hacc) as (Ht & _).
  exists (outcome_events s (outcome env s)). split; [exact Ht|].
  unfold outcome.
  destruct (store_insert env (user_request s)) as [new_id timestamp|].
  2:{ repeat split.
      - intros body [H | []]; discriminate.
      - intros row [H | []]; discriminate.
      - discriminate.
      - discriminate. }
  cbn zeta.
  assert (Hsame : forall (o : Outcome) (rows : list Message),
    outcome_rows o = stored_row (user_request s) new_id timestamp :: rows ->
    Forall (fun a => role a = RAssistant) rows ->
    (forall body, In (ProxyInvoked body) (outcome_events s o) ->
       body = JObj [ (lit "message", JStr (trim (inputValue s))) ]) /\
    (forall row, In (Stored row) (outcome_events s o) -> role row = RUser ->
       content row = Val (JStr (trim (inputValue s)))) /\
    (forall new_id0 timestamp0,
       Inserted new_id timestamp = Inserted new_id0 timestamp0 ->
       In (ProxyInvoked (JObj [ (lit "message", JStr (trim (inputValue s))) ]))
          (outcome_events s o) /\
       In (Stored (stored_row (user_request s) new_id0 timestamp0))
          (outcome_events s o))).
  { intros o rows Hrows Hroles.
    destruct o as [ | u | u c | u a]; cbn in Hrows; try discriminate;
      injection Hrows as -> <-.
    - repeat split.
      + intros body [H | [H | [H | [H | []]]]]; try discriminate.
        injection H as <-. reflexivity.
      + intros row [H | [H | [H | [H | []]]]] _; try discriminate.
        injection H as <-. reflexivity.
      + cbn. auto.
      + injection H as <- <-. cbn. auto.
    - repeat split.
      + intros body [H | [H | [H | [H | [H | []]]]]]; try discriminate.
        injection H as <-. reflexivity.
      + intros row [H | [H | [H | [H | [H | []]]]]] _; try discriminate.
        injection H as <-. reflexivity.
      + cbn. auto.
      + injection H as <- <-. cbn. auto.
    - inversion Hroles as [|a' rows' Ha _]; subst.
      repeat split.
      + intros body [H | [H | [H | [H | [H | [H | [H | []]]]]]]];
          try discriminate.
        injection H as <-. reflexivity.
      + intros row [H | [H | [H | [H | [H | [H | [H | []]]]]]]] Hrole;
          try discriminate.
        * injection H as <-. reflexivity.
        * injection H as <-. congruence.
      + cbn. auto.
      + injection H as <- <-. cbn. auto 10. }
  destruct (functions_invoke env _) as [data|];
    [|apply (Hsame _ []); [reflexivity | constructor]].
  destruct (get data (lit "response")) as [c|e];
    [|apply (Hsame _ []); [reflexivity | constructor]].
  destruct (store_insert env _) as [new_id' timestamp'|].
  - eapply Hsame; [reflexivity|]. constructor; [reflexivity | constructor].
  - apply (Hsame _ []); [reflexivity | constructor].
Qed.

Lemma trimmed_text_forwarded_witness :
  exists events : list Event,
    trace (submit sample_env (lit "  hi ") sample_session) = events /\
    forall body, In (ProxyInvoked body) events ->
      body = JObj [ (lit "message", JStr (lit "hi")) ].
Proof.
  destruct (trimmed_text_forwarded sample_env
              (setInputValue (lit "  hi ") sample_session))
    as (events & Ht & Hbody & _).
  - split; reflexivity.
  - exists events. split; [exact Ht | exact Hbody].
Defined.

(** C9. [updateDisplayName] with a name that is empty once trimmed changes
    nothing at all. With a valid name that the store accepts, the display
    name of the user's profile row becomes the trimmed name, the profile
    held by the component follows, and a later [loadProfile] that finds the
    user's row returns it with that name. Doing the same update a second
    time leaves the store and the profile as the first left them. *)
Theorem display_name_update (env : Env) (s : State) :
  (is_empty (trim (displayNameInput s)) = true ->
   updateDisplayName env s = s) /\
  (is_empty (trim (displayNameInput s)) = false ->
   profiles_update env (user s) (trim (displayNameInput s)) = true ->
   let name := trim (displayNameInput s) in
   let s' := updateDisplayName env s in
   db_profiles s' = map (overwrite_name (user s) name) (db_profiles s) /\
   (forall p, In p (db_profiles s') ->
      id_matches (user s) (profile_id p) = true -> display_name p = Some name) /\
   (forall env' p,
      profiles_select env' (user s) = true ->
      filter (fun q => id_matches (user s) (profile_id q)) (db_profiles s) = [p] ->
      profile (loadProfile env' s') = Some (with_display_name name p) /\
      displayNameInput (loadProfile env' s') = name)) /\
  (db_profiles (updateDisplayName env (updateDisplayName env s)) =
     db_profiles (updateDisplayName env s) /\
   profile (updateDisplayName env (updateDisplayName env s)) =
     profile (updateDisplayName env s)).
Proof.
  split; [|split].
  - intros Hempty. unfold updateDisplayName. rewrite Hempty. reflexivity.
  - intros Hne Hok name s'.
    destruct (updateDisplayName_stored env s Hne Hok) as (Hdb & _ & Huser & _).
    fold name s' in Hdb, Huser.
    split; [exact Hdb | split].
    + intros p Hin Hid. rewrite Hdb in Hin. apply in_map_iff in Hin.
      destruct Hin as (q & <- & _).
      rewrite overwrite_name_id in Hid.
      rewrite (overwrite_name_matching (user s) name q Hid). reflexivity.
    + intros env' p Hsel Hrow. unfold loadProfile.
      rewrite Huser, Hsel, Hdb, filter_overwrite_name, Hrow.
      cbn. split; reflexivity.
  - destruct (is_empty (trim (displayNameInput s))) eqn:Hne.
    + assert (Hsame : updateDisplayName env s = s)
        by (unfold updateDisplayName; rewrite Hne; reflexivity).
      rewrite !Hsame. split; reflexivity.
    + destruct (profiles_update env (user s) (trim (displayNameInput s))) eqn:Hok.
      * destruct (updateDisplayName_stored env s Hne Hok)
          as (Hdb & Hp & Huser & Hinput & _).
        assert (Hne' : is_empty (trim (displayNameInput (updateDisplayName env s)))
                       = false) by (rewrite Hinput; exact Hne).
        assert (Hok' : profiles_update env (user (updateDisplayName env s))
                         (trim (displayNameInput (updateDisplayName env s))) = true)
          by (rewrite Huser, Hinput; exact Hok).
        destruct (updateDisplayName_stored env _ Hne' Hok') as (Hdb' & Hp' & _).
        rewrite Hdb', Hp', Huser, Hinput, Hdb, Hp. split.
        -- rewrite map_map. apply map_ext. intros p. apply overwrite_name_twice.
        -- destruct (profile s); reflexivity.
      * destruct (updateDisplayName_refused env s Hne Hok)
          as (Hdb & Hp & Huser & Hinput).
        assert (Hne' : is_empty (trim (displayNameInput (updateDisplayName env s)))
                       = false) by (rewrite Hinput; exact Hne).
        assert (Hok' : profiles_update env (user (updateDisplayName env s))
                         (trim (displayNameInput (updateDisplayName env s))) = false)
          by (rewrite Huser, Hinput; exact Hok).
        destruct (updateDisplayName_refused env _ Hne' Hok') as (Hdb' & Hp' & _).
        rewrite Hdb', Hp'. split; reflexivity.
Qed.

Lemma display_name_update_witness :
  profile (loadProfile sample_env
             (updateDisplayName sample_env
                (setDisplayNameInput (lit "  Ada ") sample_session)))
  = Some (with_display_name (lit "Ada") sample_profile).
Proof.
  refine (proj1 (proj2 (proj2
    (proj1 (proj2
       (display_name_update sample_env
          (setDisplayNameInput (lit "  Ada ") sample_session))) _ _))
    sample_env sample_profile _ _)).
  - reflexivity.
  - reflexivity.
  - reflexivity.
  - reflexivity.
Defined.

End ChatBotProofs.

(** * The completion proxy, branch by branch *)

Module ProxyBranches.
Import Proxy ProxyProofs ProxyCases.

(** Case analysis along the handler: the preflight test, the body, the
    [message] property, the two guards, the upstream answer. *)
Ltac by_branch env req :=
  let Hm := fresh "Hm" in
  let Hp := fresh "Hp" in
  let Hg := fresh "Hg" in
  let Ht := fresh "Ht" in
  let Hk := fresh "Hk" in
  let Hf := fresh "Hf" in
  let Hok := fresh "Hok" in
  let Hx := fresh "Hx" in
  let Hj := fresh "Hj" in
  let Hc := fresh "Hc" in
  destruct (jsstr_eqb (method req) (lit "OPTIONS")) eqn:Hm;
  [ unfold serve, handler, ret; rewrite Hm
  | rewrite (serve_not_options env req Hm);
    destruct (req_json req) as [?parsed|?e] eqn:Hp;
    [ destruct (get (Val parsed) (lit "message")) as [?message|?e] eqn:Hg;
      [ rewrite (try_block_parsed env req parsed message [] Hp Hg);
        destruct (to_boolean message) eqn:Ht; cbn [negb];
        [ destruct (key_missing (openAIApiKey env)) eqn:Hk;
          [ | destruct (fetch env (completion_call env message))
                as [?up|?e] eqn:Hf;
              [ destruct (ok up) eqn:Hok; cbn [negb];
                [ destruct (up_json up) as [?data|?e] eqn:Hj;
                  [ destruct (first_choice_content data)
                      as [?aiResponse|?e] eqn:Hc | ]
                | destruct (up_text up) as [?errorData|?e] eqn:Hx ]
              | ] ]
        | ]
      | rewrite (try_block_unreadable env req parsed e [] Hp Hg) ]
    | rewrite (try_block_unparsed env req e [] Hp) ] ].

(** X1. Whatever the request and the surroundings, the handler answers with
    one of the statuses 200, 400 and 500 and with the permissive CORS
    headers; a preflight gets them with no body, every other request gets a
    JSON body and the JSON content type. *)
Theorem responses_carry_cors (env : Env) (req : Request) :
  exists r : Response,
    fst (serve env req) = Normal r /\
    (exists rest, headers r = corsHeaders ++ rest) /\
    (status r = 200 \/ status r = 400 \/ status r = 500) /\
    (jsstr_eqb (method req) (lit "OPTIONS") = true ->
     r = preflight /\ snd (serve env req) = []) /\
    (jsstr_eqb (method req) (lit "OPTIONS") = false ->
     headers r = json_headers /\ exists b, body r = Some (JObj b)).
Proof.
  by_branch env req; eexists; (split; [reflexivity|]);
    (split; [eexists; reflexivity|]);
    (split; [cbn; tauto|]);
    (split; [intros H; try discriminate H; split; reflexivity|]);
    intros H; try discriminate H;
    (split; [reflexivity | eexists; reflexivity]).
Qed.

Lemma responses_carry_cors_witness :
  exists r : Response,
    fst (serve (sample_env (Normal sample_upstream_ok)) (post (Throw SyntaxError)))
      = Normal r /\
    headers r = json_headers.
Proof.
  destruct (responses_carry_cors (sample_env (Normal sample_upstream_ok))
              (post (Throw SyntaxError)))
    as (r & Hr & _ & _ & _ & Hjson).
  exists r. split; [exact Hr|].
  exact (proj1 (Hjson eq_refl)).
Defined.

(** X2. The handler contacts the external API at most once per request,
    and exactly when the request passes both guards; the call then goes to
    the fixed completions URL by POST, with the credential as bearer token
    and, as body, what [JSON.stringify] writes for the payload built from
    the message. *)
Theorem one_call_exactly_when_forwarded (env : Env) (req : Request) :
  (List.length (snd (serve env req)) <= 1)%nat /\
  (snd (serve env req) <> [] <-> exists message, forwarded env req message) /\
  (forall message, forwarded env req message ->
     snd (serve env req) =
       [ {| url := lit "https://api.openai.com/v1/chat/completions";
            fetch_method := lit "POST";
            fetch_headers :=
              [ (lit "Authorization",
                 lit "Bearer " ++ key_text (openAIApiKey env));
                (lit "Content-Type", lit "application/json") ];
            fetch_body := stringify (openAIPayload message) |} ]).
Proof.
  assert (Hno : forall message, forwarded env req message ->
            jsstr_eqb (method req) (lit "OPTIONS") = false /\
            exists parsed, req_json req = Normal parsed /\
              get (Val parsed) (lit "message") = Normal message /\
              to_boolean message = true /\
              key_missing (openAIApiKey env) = false).
  { intros message (Hm & (parsed & Hp & Hg) & Ht & Hk). eauto 10. }
  by_branch env req; cbn [snd app List.length];
    (split; [lia|]);
    (split;
     [ split;
       [ intros Hcalls; try (exfalso; apply Hcalls; reflexivity);
         exists message; unfold forwarded; eauto 10
       | intros (message' & Hfw);
         destruct (Hno message' Hfw) as (Hm' & parsed' & Hp' & Hg' & Ht' & Hk');
         try congruence; discriminate ]
     | intros message' Hfw;
       destruct (Hno message' Hfw) as (Hm' & parsed' & Hp' & Hg' & Ht' & Hk');
       try congruence;
       assert (message' = message) by congruence; subst message';
       reflexivity ]).
Qed.

Lemma one_call_exactly_when_forwarded_witness :
  snd (serve (sample_env (Normal sample_upstream_limited)) sample_request) =
    [ completion_call (sample_env (Normal sample_upstream_limited))
        (Val (JStr sample_question)) ].
Proof.
  refine (proj2 (proj2 (one_call_exactly_when_forwarded
            (sample_env (Normal sample_upstream_limited)) sample_request))
            (Val (JStr sample_question)) _).
  split; [reflexivity|].
  split; [eexists; split; reflexivity|].
  split; reflexivity.
Defined.

(** X3. With a truthy message but no usable credential (the variable unset,
    or set to the empty string) the handler answers 500 with
    [{"error": "OpenAI API key not configured"}] and contacts nobody. *)
Theorem missing_key_reported (env : Env) (req : Request)
    (parsed : json) (message : jsval) :
  jsstr_eqb (method req) (lit "OPTIONS") = false ->
  req_json req = Normal parsed ->
  get (Val parsed) (lit "message") = Normal message ->
  to_boolean message = true ->
  openAIApiKey env = None \/ openAIApiKey env = Some [] ->
  serve env req =
    (Normal {| status := 500;
               headers := json_headers;
               body := Some (JObj [ (lit "error",
                              JStr (lit "OpenAI API key not configured")) ]) |},
     []).
Proof.
  intros Hm Hp Hg Ht Hkey.
  rewrite (serve_not_options env req Hm).
  rewrite (try_block_parsed env req parsed message [] Hp Hg), Ht.
  destruct Hkey as [-> | ->]; reflexivity.
Qed.

Lemma missing_key_reported_witness :
  serve sample_env_empty_key sample_request = (Normal key_not_configured, []).
Proof.
  apply (missing_key_reported sample_env_empty_key sample_request
           (JObj [ (lit "message", JStr sample_question) ])
           (Val (JStr sample_question))).
  - reflexivity.
  - reflexivity.
  - reflexivity.
  - reflexivity.
  - right. reflexivity.
Defined.

(** X4. The message is tested for truthiness and for nothing else, and
    before the credential: when the body parses and [message] can be read,
    the answer is 400 exactly when the message is falsy ([undefined], [null],
    [false], zero, NaN or the empty string), whether or not a credential is
    set; a blank but non-empty string, a number or an object goes on. *)
Theorem message_tested_for_truthiness (env : Env) (req : Request)
    (parsed : json) (message : jsval) :
  jsstr_eqb (method req) (lit "OPTIONS") = false ->
  req_json req = Normal parsed ->
  get (Val parsed) (lit "message") = Normal message ->
  (to_boolean message = false ->
   serve env req = (Normal message_required, [])) /\
  (to_boolean message = true ->
   exists r, fst (serve env req) = Normal r /\ status r <> 400).
Proof.
  intros Hm Hp Hg.
  rewrite (serve_not_options env req Hm).
  rewrite (try_block_parsed env req parsed message [] Hp Hg).
  split; intros Ht; rewrite Ht; cbn [negb]; [reflexivity|].
  destruct (key_missing (openAIApiKey env));
    [eexists; split; [reflexivity | discriminate]|].
  destruct (fetch env (completion_call env message)) as [up|e];
    [|eexists; split; [reflexivity | discriminate]].
  destruct (negb (ok up)).
  - destruct (up_text up); eexists; (split; [reflexivity | discriminate]).
  - destruct (up_json up) as [data|e];
      [|eexists; split; [reflexivity | discriminate]].
    destruct (first_choice_content data);
      eexists; (split; [reflexivity | discriminate]).
Qed.

(** The message [0] is refused although it is present; no credential is
    needed to be told so. *)
Lemma message_tested_for_truthiness_witness :
  serve sample_env_empty_key
        (post (Normal (JObj [ (lit "message", JNum (S754_zero false)) ])))
  = (Normal message_required, []).
Proof.
  apply (proj1 (message_tested_for_truthiness sample_env_empty_key
                  (post (Normal (JObj [ (lit "message", JNum (S754_zero false)) ])))
                  (JObj [ (lit "message", JNum (S754_zero false)) ])
                  (Val (JNum (S754_zero false)))
                  eq_refl eq_refl eq_refl)).
  reflexivity.
Defined.

(** X5. A body that is valid JSON but not an object: [null] cannot be
    destructured and is answered 500 with the generic internal error; a
    boolean, a number, a string or an array has no [message] and is answered
    400. In both cases nothing is sent out. *)
Theorem body_that_is_not_an_object (env : Env) (req : Request) (parsed : json) :
  jsstr_eqb (method req) (lit "OPTIONS") = false ->
  req_json req = Normal parsed ->
  match parsed with
  | JObj _ => True
  | JNull => serve env req = (Normal internal_error, [])
  | _ => serve env req = (Normal message_required, [])
  end.
Proof.
  intros Hm Hp.
  destruct parsed as [ | b | x | str | items | props ]; [ | | | | | exact I ].
  - rewrite (serve_not_options env req Hm).
    rewrite (try_block_unreadable env req JNull TypeError [] Hp eq_refl).
    reflexivity.
  - rewrite (serve_not_options env req Hm).
    rewrite (try_block_parsed env req _ Undefined [] Hp eq_refl). reflexivity.
  - rewrite (serve_not_options env req Hm).
    rewrite (try_block_parsed env req _ Undefined [] Hp eq_refl). reflexivity.
  - rewrite (serve_not_options env req Hm).
    rewrite (try_block_parsed env req _ Undefined [] Hp eq_refl). reflexivity.
  - rewrite (serve_not_options env req Hm).
    rewrite (try_block_parsed env req _ Undefined [] Hp eq_refl). reflexivity.
Qed.

Lemma body_that_is_not_an_object_witness :
  serve (sample_env (Normal sample_upstream_ok)) (post (Normal JNull))
  = (Normal internal_error, []).
Proof.
  exact (body_that_is_not_an_object (sample_env (Normal sample_upstream_ok))
           (post (Normal JNull)) JNull eq_refl eq_refl).
Defined.

(** X6. When the external API answers with success but its JSON has no
    [choices], or an empty list of them, reading the first choice throws:
    the client gets the generic 500, after the one call and with nothing of
    the upstream answer in the response. *)
Theorem completion_without_choice (env : Env) (req : Request)
    (message : jsval) (up : Upstream) (data : json) :
  forwarded env req message ->
  fetch env (completion_call env message) = Normal up ->
  ok up = true ->
  up_json up = Normal data ->
  get (Val data) (lit "choices") = Normal Undefined \/
  get (Val data) (lit "choices") = Normal (Val (JArr [])) ->
  serve env req = (Normal internal_error, [completion_call env message]).
Proof.
  intros (Hm & (parsed & Hp & Hg) & Ht & Hk) Hf Hok Hj Hchoices.
  assert (Hc : first_choice_content data = Throw TypeError).
  { unfold first_choice_content.
    destruct Hchoices as [-> | ->]; reflexivity. }
  rewrite (serve_not_options env req Hm).
  rewrite (try_block_parsed env req parsed message [] Hp Hg).
  rewrite Ht, Hk, Hf, Hok, Hj, Hc. reflexivity.
Qed.

Lemma completion_without_choice_witness :
  serve (sample_env (Normal sample_upstream_no_choices)) sample_request
  = (Normal internal_error,
     [ completion_call (sample_env (Normal sample_upstream_no_choices))
         (Val (JStr sample_question)) ]).
Proof.
  apply (completion_without_choice
           (sample_env (Normal sample_upstream_no_choices)) sample_request
           (Val (JStr sample_question)) sample_upstream_no_choices (JObj [])).
  - split; [reflexivity|].
    split; [eexists; split; reflexivity|].
    split; reflexivity.
  - reflexivity.
  - reflexivity.
  - reflexivity.
  - left. reflexivity.
Defined.

(** X7. When the first choice has a message without [content], the handler
    still answers 200, and since [JSON.stringify] drops an undefined member
    the body is the empty object: the success response has no [response]
    member at all. *)
Theorem completion_without_content (env : Env) (req : Request)
    (message : jsval) (up : Upstream) (data : json) :
  forwarded env req message ->
  fetch env (completion_call env message) = Normal up ->
  ok up = true ->
  up_json up = Normal data ->
  first_choice_content data = Normal Undefined ->
  serve env req =
    (Normal {| status := 200; headers := json_headers; body := Some (JObj []) |},
     [completion_call env message]) /\
  get (Val (JObj [])) (lit "response") = Normal Undefined.
Proof.
  intros (Hm & (parsed & Hp & Hg) & Ht & Hk) Hf Hok Hj Hc.
  split; [|reflexivity].
  rewrite (serve_not_options env req Hm).
  rewrite (try_block_parsed env req parsed message [] Hp Hg).
  rewrite Ht, Hk, Hf, Hok, Hj, Hc. reflexivity.
Qed.

Lemma completion_without_content_witness :
  serve (sample_env (Normal sample_upstream_no_content)) sample_request
  = (Normal {| status := 200; headers := json_headers; body := Some (JObj []) |},
     [ completion_call (sample_env (Normal sample_upstream_no_content))
         (Val (JStr sample_question)) ]).
Proof.
  apply (proj1 (completion_without_content
           (sample_env (Normal sample_upstream_no_content)) sample_request
           (Val (JStr sample_question)) sample_upstream_no_content
           sample_completion_no_content
           (conj eq_refl
              (conj (ex_intro _ _ (conj eq_refl eq_refl))
                 (conj eq_refl eq_refl)))
           eq_refl eq_refl eq_refl eq_refl)).
Defined.

End ProxyBranches.

(** * Properties of [trim] *)

Module TrimFacts.

(** What [trim_start] leaves does not begin with a blank. *)
Lemma trim_start_head (s : jsstr) :
  trim_start s = [] \/
  exists c rest, trim_start s = c :: rest /\ strippable c = false.
Proof.
  induction s as [|c s IH]; [left; reflexivity|].
  cbn [trim_start]. destruct (strippable c) eqn:Hc; [exact IH|].
  right. exists c, s. split; [reflexivity | exact Hc].
Qed.

(** A string that does not begin with a blank is left alone. *)
Lemma trim_start_clean (c : code_unit) (rest : jsstr) :
  strippable c = false -> trim_start (c :: rest) = c :: rest.
Proof. intros Hc. cbn [trim_start]. rewrite Hc. reflexivity. Qed.

(** Blanks are removed in front of a character that is not one, which
    stays. *)
Lemma trim_start_before_clean (c : code_unit) (l : jsstr) :
  strippable c = false ->
  exists l', trim_start (l ++ [c]) = l' ++ [c].
Proof.
  intros Hc. induction l as [|d l IH].
  - exists []. cbn. rewrite Hc. reflexivity.
  - cbn [app trim_start]. destruct (strippable d); [exact IH|].
    exists (d :: l). reflexivity.
Qed.

(** [trim_end] keeps a first character that is not a blank. *)
Lemma trim_end_keeps_head (c : code_unit) (rest : jsstr) :
  strippable c = false ->
  exists rest', trim_end (c :: rest) = c :: rest'.
Proof.
  intros Hc. unfold trim_end. cbn [rev].
  destruct (trim_start_before_clean c (rev rest) Hc) as [l' Hl'].
  rewrite Hl', rev_app_distr. exists (rev l'). reflexivity.
Qed.

(** The result of [trim] is empty, or begins and ends with characters that
    are not blanks. *)
Lemma trim_ends (s : jsstr) :
  trim s = [] \/
  (exists c rest, trim s = c :: rest /\ strippable c = false) /\
  (exists front c, trim s = front ++ [c] /\ strippable c = false).
Proof.
  unfold trim.
  destruct (trim_start_head s) as [-> | (c & rest & -> & Hc)];
    [left; reflexivity|].
  right. split.
  - destruct (trim_end_keeps_head c rest Hc) as [rest' ->].
    exists c, rest'. split; [reflexivity | exact Hc].
  - unfold trim_end.
    destruct (trim_start_head (rev (c :: rest))) as [Hnil | (d & u & Hu & Hd)].
    + destruct (trim_start_before_clean c (rev rest) Hc) as [l' Hl'].
      cbn [rev] in Hnil. rewrite Hl' in Hnil.
      destruct l'; discriminate Hnil.
    + rewrite Hu. cbn [rev]. exists (rev u), d. split; [reflexivity | exact Hd].
Qed.

(** Trimming twice is trimming once. *)
Lemma trim_idempotent (s : jsstr) : trim (trim s) = trim s.
Proof.
  unfold trim at 2 3.
  destruct (trim_start_head s) as [-> | (c & rest & -> & Hc)];
    [reflexivity|].
  unfold trim_end.
  destruct (trim_start_head (rev (c :: rest))) as [Hnil | (d & u & Hu & Hd)].
  - rewrite Hnil. reflexivity.
  - rewrite Hu.
    assert (Hhead : exists w, rev (d :: u) = c :: w).
    { destruct (trim_end_keeps_head c rest Hc) as [rest' Hr].
      unfold trim_end in Hr. rewrite Hu in Hr. eauto. }
    destruct Hhead as [w Hw]. unfold trim. rewrite Hw.
    rewrite (trim_start_clean c w Hc). rewrite <- Hw.
    unfold trim_end. rewrite rev_involutive.
    rewrite (trim_start_clean d u Hd). reflexivity.
Qed.

End TrimFacts.

(** * More properties of the conversation controller *)

Module ChatBotMore.
Import ChatBot ChatBotView ChatBotProofs TrimFacts.

#[local] Arguments lit : simpl never.
#[local] Arguments trim : simpl never.
#[local] Arguments get : simpl never.
#[local] Arguments invoke_body : simpl never.

(** X8. When the insert of the user turn is refused, the submission is
    dropped as a whole: nothing is stored or shown, the proxy is never
    invoked, the error toast is raised once, [loading] is cleared, and the
    input stays cleared, so the text has to be typed again. *)
Theorem user_save_failure_drops_submission (env : Env) (s : State) :
  accepted s ->
  store_insert env (user_request s) = InsertError ->
  let s' := handleSendMessage env s in
  db_messages s' = db_messages s /\
  messages s' = messages s /\
  trace s' = trace s ++ [ InsertRequested (user_request s) ] /\
  (forall body, ~ In (ProxyInvoked body) [ InsertRequested (user_request s) ]) /\
  toasts s' = toasts s ++ [ send_failed_toast ] /\
  loading s' = false /\
  inputValue s' = [].
Proof.
  intros Hacc Hfail s'.
  destruct (handleSendMessage_outcome env s Hacc)
    as (Ht & Hdb & Hv & Hto & Hl & Hin).
  assert (Ho : outcome env s = UserSaveFailed)
    by (unfold outcome; rewrite Hfail; reflexivity).
  rewrite Ho in Ht, Hdb, Hv, Hto. cbn in Ht, Hdb, Hv, Hto.
  rewrite app_nil_r in Hdb, Hv.
  repeat split; try assumption.
  intros body [H | []]. discriminate H.
Qed.

Lemma user_save_failure_drops_submission_witness :
  trace (handleSendMessage sample_env_store_down
           (setInputValue (lit "What is photosynthesis?") sample_session))
  = [ InsertRequested
        (user_request (setInputValue (lit "What is photosynthesis?")
                         sample_session)) ].
Proof.
  refine (proj1 (proj2 (proj2
    (user_save_failure_drops_submission sample_env_store_down
       (setInputValue (lit "What is photosynthesis?") sample_session) _ _)))).
  - split; reflexivity.
  - reflexivity.
Defined.

(** X9. Whatever the outcome of a call of [handleSendMessage], calling it
    again without typing does nothing: an accepted call leaves the input
    empty, and a rejected one left everything as it was. *)
Theorem second_send_without_typing (env env' : Env) (s : State) :
  handleSendMessage env' (handleSendMessage env s) = handleSendMessage env s.
Proof.
  destruct (is_empty (trim (inputValue s)) || loading s) eqn:Hguard.
  - assert (Hsame : handleSendMessage env s = s)
      by (unfold handleSendMessage; rewrite Hguard; reflexivity).
    rewrite Hsame. unfold handleSendMessage. rewrite Hguard. reflexivity.
  - apply orb_false_elim in Hguard.
    destruct (handleSendMessage_outcome env s Hguard) as (_ & _ & _ & _ & _ & Hin).
    apply handleSendMessage_rejected. left. rewrite Hin. reflexivity.
Qed.

(** The message of an invocation, as the proxy reads it from the body. *)
Lemma invoke_body_message (m : jsstr) :
  get (Val (invoke_body m)) (lit "message") = Normal (Val (JStr m)).
Proof. reflexivity. Qed.

(** X10. The message an accepted submission sends is never blank: it is
    not empty, it begins and ends with characters that are not white space,
    and trimming it again changes nothing. The proxy therefore never
    answers such a request with its 400, whatever its surroundings. *)
Theorem sent_message_is_never_blank (s : State) :
  accepted s ->
  let m := trim (inputValue s) in
  m <> [] /\
  trim m = m /\
  (exists c rest, m = c :: rest /\ strippable c = false) /\
  (exists front c, m = front ++ [c] /\ strippable c = false) /\
  forall penv : Proxy.Env,
    exists r, fst (Proxy.serve penv (Proxy.post (Normal (invoke_body m))))
                = Normal r /\
              Proxy.status r <> 400.
Proof.
  intros [Hne _] m.
  assert (Hm : m <> []) by (intros Hnil; unfold m in Hnil; rewrite Hnil in Hne;
                            discriminate Hne).
  split; [exact Hm|].
  split; [apply trim_idempotent|].
  destruct (trim_ends (inputValue s)) as [Hnil | [Hhead Hlast]];
    [contradiction|].
  split; [exact Hhead|]. split; [exact Hlast|].
  intros penv.
  assert (Ht : to_boolean (Val (JStr m)) = true).
  { cbn. destruct m; [contradiction | reflexivity]. }
  rewrite (ProxyProofs.serve_not_options penv
             (Proxy.post (Normal (invoke_body m))) eq_refl).
  rewrite (ProxyProofs.try_block_parsed penv
             (Proxy.post (Normal (invoke_body m)))
             (invoke_body m) (Val (JStr m)) []
             eq_refl (invoke_body_message m)).
  rewrite Ht. cbn [negb].
  destruct (Proxy.key_missing (Proxy.openAIApiKey penv));
    [eexists; split; [reflexivity | discriminate]|].
  destruct (Proxy.fetch penv _) as [up|e];
    [|eexists; split; [reflexivity | discriminate]].
  destruct (negb (Proxy.ok up)).
  - destruct (Proxy.up_text up); eexists; (split; [reflexivity | discriminate]).
  - destruct (Proxy.up_json up) as [data|e];
      [|eexists; split; [reflexivity | discriminate]].
    destruct (Proxy.first_choice_content data);
      eexists; (split; [reflexivity | discriminate]).
Qed.

Lemma sent_message_is_never_blank_witness :
  trim (trim (lit "  hi ")) = trim (lit "  hi ").
Proof.
  exact (proj1 (proj2
    (sent_message_is_never_blank (setInputValue (lit "  hi ") sample_session)
       (conj eq_refl eq_refl)))).
Defined.

Lemma before_at_no_at (e : jsstr) : ~ In 0x40 (before_at e).
Proof.
  induction e as [|c e IH]; [intros []|].
  cbn [before_at]. destruct (c =? 0x40) eqn:Hc; [intros []|].
  intros [H | H]; [|exact (IH H)].
  apply N.eqb_neq in Hc. exact (Hc H).
Qed.

Lemma or_user_facts (x : jsstr) :
  or_user x <> [] /\ (~ In 0x40 x -> ~ In 0x40 (or_user x)).
Proof.
  unfold or_user. destruct x as [|c x]; cbn [is_empty].
  - split; [discriminate|]. intros _ H. vm_compute in H. intuition discriminate.
  - split; [discriminate | auto].
Qed.

(** X11. The name shown in the header is never empty, and when it does not
    come from a stored display name it is the part of the email before the
    first [@], or [User]: the rest of the address is never shown. *)
Theorem displayed_name_never_empty (p : option Profile) :
  displayName p <> [] /\
  (forall q, p = Some q ->
     display_name q = None \/ display_name q = Some [] ->
     ~ In 0x40 (displayName p)) /\
  (forall q n, p = Some q -> display_name q = Some n -> n <> [] ->
     displayName p = n).
Proof.
  split; [|split].
  - destruct p as [q|]; [|discriminate].
    unfold displayName. destruct (display_name q) as [[|c n]|]; cbn [is_empty].
    + apply or_user_facts.
    + discriminate.
    + apply or_user_facts.
  - intros q -> Hname. unfold displayName.
    destruct Hname as [-> | ->]; cbn [is_empty];
      apply or_user_facts, before_at_no_at.
  - intros q n -> Hname Hn. unfold displayName. rewrite Hname.
    destruct n; [contradiction | reflexivity].
Qed.

Lemma displayed_name_never_empty_witness :
  ~ In 0x40 (displayName (Some sample_profile)).
Proof.
  exact (proj1 (proj2 (displayed_name_never_empty (Some sample_profile)))
           sample_profile eq_refl (or_introl eq_refl)).
Defined.

(** X12. After an update that the store accepts, the header shows the
    trimmed name if a profile had been loaded. If none had (its load
    failed), the store is updated all the same but the component keeps no
    profile, and the header goes on showing [User]. *)
Theorem updated_name_is_displayed (env : Env) (s : State) :
  is_empty (trim (displayNameInput s)) = false ->
  profiles_update env (user s) (trim (displayNameInput s)) = true ->
  let s' := updateDisplayName env s in
  (profile s <> None -> displayName (profile s') = trim (displayNameInput s)) /\
  (profile s = None ->
   displayName (profile s') = lit "User" /\
   db_profiles s' =
     map (overwrite_name (user s) (trim (displayNameInput s))) (db_profiles s)).
Proof.
  intros Hne Hok s'.
  destruct (updateDisplayName_stored env s Hne Hok) as (Hdb & Hp & _).
  fold s' in Hdb, Hp. rewrite Hp. split.
  - destruct (profile s) as [p|]; [intros _ | intros H; contradiction].
    unfold displayName, with_display_name. cbn [display_name]. rewrite Hne.
    reflexivity.
  - intros ->. split; [reflexivity | exact Hdb].
Qed.

Lemma updated_name_is_displayed_witness :
  displayName (profile (updateDisplayName sample_env
                          (setDisplayNameInput (lit "  Ada ") sample_session)))
  = lit "Ada".
Proof.
  refine (proj1 (updated_name_is_displayed sample_env
            (setDisplayNameInput (lit "  Ada ") sample_session) _ _) _).
  - reflexivity.
  - reflexivity.
  - discriminate.
Defined.

(** X13. When the store refuses the update, nothing is changed but the
    failure toast: the table and the loaded profile keep the old name, the
    dialog stays as it was with the typed name in it, and the header shows
    what it showed before. *)
Theorem refused_update_changes_nothing (env : Env) (s : State) :
  is_empty (trim (displayNameInput s)) = false ->
  profiles_update env (user s) (trim (displayNameInput s)) = false ->
  let s' := updateDisplayName env s in
  db_profiles s' = db_profiles s /\
  profile s' = profile s /\
  displayName (profile s') = displayName (profile s) /\
  nameDialogOpen s' = nameDialogOpen s /\
  displayNameInput s' = displayNameInput s /\
  toasts s' = toasts s ++ [ name_update_failed_toast ].
Proof.
  intros Hne Hok s'. unfold s', updateDisplayName. rewrite Hne. cbn zeta.
  rewrite Hok. repeat split.
Qed.

Lemma refused_update_changes_nothing_witness :
  toasts (updateDisplayName sample_env_store_down
            (setDisplayNameInput (lit "Ada") sample_session))
  = [ name_update_failed_toast ].
Proof.
  refine (proj2 (proj2 (proj2 (proj2 (proj2
    (refused_update_changes_nothing sample_env_store_down
       (setDisplayNameInput (lit "Ada") sample_session) _ _)))))).
  - reflexivity.
  - reflexivity.
Defined.

Lemma overwrite_name_email (uid : option jsstr) (name : jsstr) (p : Profile) :
  email (overwrite_name uid name p) = email p.
Proof.
  unfold overwrite_name. destruct (id_matches uid (profile_id p)); reflexivity.
Qed.

Lemma overwrite_name_other (uid : option jsstr) (name : jsstr) (p : Profile) :
  id_matches uid (profile_id p) = false -> overwrite_name uid name p = p.
Proof. intros H. unfold overwrite_name. rewrite H. reflexivity. Qed.

(** X14. Whatever the name and whatever the store answers,
    [updateDisplayName] changes display names and nothing else: the
    [profiles] table keeps its rows, their ids and their emails in place,
    the rows of other users are the same rows, and the conversation (stored
    messages, view, input, loading flag, suspended calls) is not touched.
    Without a signed-in user no row is changed at all. *)
Theorem update_touches_only_display_names (env : Env) (s : State) :
  let s' := updateDisplayName env s in
  map profile_id (db_profiles s') = map profile_id (db_profiles s) /\
  map email (db_profiles s') = map email (db_profiles s) /\
  (forall p, In p (db_profiles s) ->
     id_matches (user s) (profile_id p) = false -> In p (db_profiles s')) /\
  (user s = None -> db_profiles s' = db_profiles s) /\
  db_messages s' = db_messages s /\
  messages s' = messages s /\
  inputValue s' = inputValue s /\
  loading s' = loading s /\
  pending s' = pending s /\
  user s' = user s.
Proof.
  intros s'. unfold s', updateDisplayName.
  destruct (is_empty (trim (displayNameInput s)));
    [repeat split; auto|].
  cbn zeta.
  destruct (profiles_update env (user s) (trim (displayNameInput s)));
    [|repeat split; auto].
  cbn [db_profiles db_messages messages inputValue loading pending user toast
       setNameDialogOpen setProfile db_set_profiles emit].
  repeat split.
  - rewrite map_map. apply map_ext. intros p. apply overwrite_name_id.
  - rewrite map_map. apply map_ext. intros p. apply overwrite_name_email.
  - intros p Hin Hother. apply in_map_iff. exists p.
    split; [apply overwrite_name_other; exact Hother | exact Hin].
  - intros Hnone. rewrite Hnone. rewrite <- (map_id (db_profiles s)) at 2.
    apply map_ext. intros p. reflexivity.
Qed.

Lemma loadProfile_frame (env : Env) (s : State) :
  db_profiles (loadProfile env s) = db_profiles s /\
  db_messages (loadProfile env s) = db_messages s /\
  messages (loadProfile env s) = messages s /\
  toasts (loadProfile env s) = toasts s /\
  trace (loadProfile env s) = trace s.
Proof.
  unfold loadProfile.
  destruct (profiles_select env (user s)); [|repeat split].
  destruct (filter (fun p => id_matches (user s) (profile_id p)) (db_profiles s))
    as [|data [|other rows]]; repeat split.
Qed.

(** X15. [loadProfile] only reads: it leaves both tables, the view, the
    toasts and the trace as they were, and a failed load is silent. Unless
    the query succeeds and finds exactly one row of the user, it changes
    nothing at all; and loading twice is loading once. *)
Theorem loadProfile_reads_only (env : Env) (s : State) :
  let s' := loadProfile env s in
  db_profiles s' = db_profiles s /\
  db_messages s' = db_messages s /\
  messages s' = messages s /\
  toasts s' = toasts s /\
  trace s' = trace s /\
  (profiles_select env (user s) = false \/
   List.length (filter (fun p => id_matches (user s) (profile_id p))
                  (db_profiles s)) <> 1%nat ->
   s' = s) /\
  loadProfile env s' = s'.
Proof.
  intros s'. unfold s', loadProfile.
  destruct (profiles_select env (user s)) eqn:Hsel.
  2:{ repeat split. rewrite Hsel. reflexivity. }
  destruct (filter (fun p => id_matches (user s) (profile_id p)) (db_profiles s))
    as [|data [|other rows]] eqn:Hrows.
  - repeat split. rewrite Hsel, Hrows. reflexivity.
  - repeat split.
    + intros [H | H]; [discriminate H | exfalso; apply H; reflexivity].
    + cbn [user db_profiles setDisplayNameInput setProfile].
      rewrite Hsel, Hrows. reflexivity.
  - repeat split. rewrite Hsel, Hrows. reflexivity.
Qed.

Lemma loadProfile_reads_only_witness :
  loadProfile sample_env_store_down sample_session_no_profile
  = sample_session_no_profile.
Proof.
  refine (proj1 (proj2 (proj2 (proj2 (proj2 (proj2
    (loadProfile_reads_only sample_env_store_down
       sample_session_no_profile)))))) _).
  left. reflexivity.
Defined.

Lemma update_touches_only_display_names_witness :
  db_profiles (updateDisplayName sample_env
                 (setDisplayNameInput (lit "Ada")
                    {| user := None; messages := []; inputValue := [];
                       loading := false; profile := None;
                       displayNameInput := []; nameDialogOpen := true;
                       toasts := []; db_messages := [];
                       db_profiles := [sample_profile];
                       pending := []; trace := [] |}))
  = [sample_profile].
Proof.
  refine (proj1 (proj2 (proj2 (proj2
    (update_touches_only_display_names sample_env _)))) _).
  reflexivity.
Defined.

(** *** Sessions under any interleaving *)

Lemma run_app (xs ys : list Input) (s : State) :
  run (xs ++ ys) s = run ys (run xs s).
Proof. unfold run. apply fold_left_app. Qed.

(** With the keyboard, a session is still a run of session inputs. *)
Lemma ui_run_as_run (events : list UiEvent) :
  forall s, ui_run events s = run (flat_map as_inputs events) s.
Proof.
  induction events as [|ev events IH]; intros s; [reflexivity|].
  cbn [ui_run fold_left flat_map]. rewrite run_app. fold (ui_run events (ui_step ev s)).
  rewrite IH. f_equal.
  destruct ev as [i | e]; [reflexivity|].
  cbn [ui_step as_inputs]. unfold handleKeyPress.
  destruct (jsstr_eqb (key e) (lit "Enter") && negb (shiftKey e)); reflexivity.
Qed.

Lemma grows_refl (s : State) : grows s s.
Proof.
  unfold grows. repeat split; exists []; rewrite app_nil_r; reflexivity.
Qed.

Lemma grows_trans (a b c : State) : grows a b -> grows b c -> grows a c.
Proof.
  intros (Hu & Hp & Hd & Hn & Ho & (r & Hr) & (v & Hv) & (t & Ht) & (e & He))
         (Hu' & Hp' & Hd' & Hn' & Ho' & (r' & Hr') & (v' & Hv') & (t' & Ht')
          & (e' & He')).
  unfold grows. repeat split; try congruence.
  - exists (r ++ r'). rewrite Hr', Hr, app_assoc. reflexivity.
  - exists (v ++ v'). rewrite Hv', Hv, app_assoc. reflexivity.
  - exists (t ++ t'). rewrite Ht', Ht, app_assoc. reflexivity.
  - exists (e ++ e'). rewrite He', He, app_assoc. reflexivity.
Qed.

(** What one continuation of [handleSendMessage] does to the session: the
    rows it stores are the rows it shows, they are written for the user of
    the request it awaited, and a call that goes on past its user row has
    shown it. *)
Lemma send_resume_effect (k : Suspended) (r : Settled) (s s' : State) :
  send_resume k r s = Some s' ->
  grows s s' /\
  exists rows next,
    db_messages s' = db_messages s ++ rows /\
    messages s' = messages s ++ rows /\
    pending s' = pending s ++ next /\
    (writes_for (user s) k ->
     Forall (fun m => user_id m = user s) rows /\
     Forall (writes_for (user s)) next) /\
    Forall (fun k' => awaits_user_save k' = false /\
                      (rows <> [] \/ awaits_user_save k = false)) next.
Proof.
  intros Hr.
  destruct k as [req userMessage | body | req];
    destruct r as [[new_id timestamp|] | [data|]]; cbn in Hr; try discriminate.
  - injection Hr as <-. split.
    + unfold grows. cbn. repeat split; eexists; try reflexivity;
        rewrite <- ?app_assoc; try reflexivity;
        rewrite app_nil_r; reflexivity.
    + exists [stored_row req new_id timestamp], [AwaitInvoke (invoke_body userMessage)].
      cbn. repeat split.
      * constructor; [exact H | constructor].
      * constructor; [exact I | constructor].
      * constructor; [|constructor]. split; [reflexivity|]. left. discriminate.
  - injection Hr as <-. split.
    + unfold grows. cbn. repeat split; eexists; try reflexivity;
        rewrite app_nil_r; reflexivity.
    + exists [], []. cbn. rewrite !app_nil_r. repeat split; constructor.
  - destruct (get data (lit "response")) as [c|e]; injection Hr as <-.
    + split.
      * unfold grows. cbn. repeat split; eexists; try reflexivity;
          rewrite app_nil_r; reflexivity.
      * exists [], [AwaitAssistantSave (insert_req s RAssistant c)].
        cbn. rewrite !app_nil_r. repeat split.
        -- constructor.
        -- constructor; [reflexivity | constructor].
        -- constructor; [|constructor]. split; [reflexivity|]. right. reflexivity.
    + split.
      * unfold grows. cbn. repeat split; eexists; try reflexivity;
          rewrite app_nil_r; reflexivity.
      * exists [], []. cbn. rewrite !app_nil_r. repeat split; constructor.
  - injection Hr as <-. split.
    + unfold grows. cbn. repeat split; eexists; try reflexivity;
        rewrite app_nil_r; reflexivity.
    + exists [], []. cbn. rewrite !app_nil_r. repeat split; constructor.
  - injection Hr as <-. split.
    + unfold grows. cbn. repeat split; eexists; try reflexivity;
        rewrite <- ?app_assoc; try reflexivity;
        rewrite app_nil_r; reflexivity.
    + exists [stored_row req new_id timestamp], [].
      cbn. rewrite !app_nil_r. repeat split.
      * constructor; [exact H | constructor].
      * constructor.
      * constructor.
  - injection Hr as <-. split.
    + unfold grows. cbn. repeat split; eexists; try reflexivity;
        rewrite app_nil_r; reflexivity.
    + exists [], []. cbn. rewrite !app_nil_r. repeat split; constructor.
Qed.

Lemma Forall_remove_nth {A} (P : A -> Prop) (n : nat) (l : list A) :
  Forall P l -> Forall P (remove_nth n l).
Proof.
  intros H. revert n. induction H as [|x l Hx Hl IH]; intros n.
  - destruct n; constructor.
  - destruct n as [|n]; cbn [remove_nth]; [exact Hl|].
    constructor; [exact Hx | apply IH].
Qed.

Lemma Forall_nth_error {A} (P : A -> Prop) (n : nat) (l : list A) (x : A) :
  Forall P l -> nth_error l n = Some x -> P x.
Proof.
  intros H Hn. apply nth_error_In in Hn.
  rewrite Forall_forall in H. exact (H x Hn).
Qed.

Lemma send_start_grows (s : State) : grows s (send_start s).
Proof.
  unfold send_start.
  destruct (is_empty (trim (inputValue s)) || loading s); [apply grows_refl|].
  unfold grows. cbn. repeat split; eexists; try reflexivity;
    rewrite app_nil_r; reflexivity.
Qed.

Lemma set_pending_grows (l : list Suspended) (s : State) :
  grows s (set_pending l s).
Proof.
  unfold grows. cbn. repeat split; exists []; rewrite app_nil_r; reflexivity.
Qed.

Lemma step_grows (i : Input) (s : State) : grows s (step i s).
Proof.
  destruct i as [text | | n r]; cbn [step].
  - unfold grows. cbn. repeat split; exists []; rewrite app_nil_r; reflexivity.
  - apply send_start_grows.
  - destruct (nth_error (pending s) n) as [k|]; [|apply grows_refl].
    destruct (send_resume k r (set_pending (remove_nth n (pending s)) s))
      as [s'|] eqn:Hr; [|apply grows_refl].
    apply (grows_trans s (set_pending (remove_nth n (pending s)) s) s').
    + apply set_pending_grows.
    + exact (proj1 (send_resume_effect k r _ s' Hr)).
Qed.

Lemma run_grows (inputs : list Input) : forall s, grows s (run inputs s).
Proof.
  induction inputs as [|i inputs IH]; intros s; [apply grows_refl|].
  cbn [run fold_left]. apply (grows_trans s (step i s)).
  - apply step_grows.
  - apply IH.
Qed.

Lemma step_mirrored (s0 : State) (i : Input) (s : State) :
  mirrored s0 s -> mirrored s0 (step i s).
Proof.
  intros (Hu & (rows & Hdb & Hv & Hrows) & Hpend).
  destruct i as [text | | n r]; cbn [step].
  - unfold mirrored. cbn. eauto 10.
  - unfold send_start.
    destruct (is_empty (trim (inputValue s)) || loading s);
      [unfold mirrored; eauto 10|].
    unfold mirrored. cbn. split; [exact Hu|]. split; [eauto|].
    apply Forall_app. split; [exact Hpend|].
    constructor; [exact Hu | constructor].
  - destruct (nth_error (pending s) n) as [k|] eqn:Hk;
      [|unfold mirrored; eauto 10].
    destruct (send_resume k r (set_pending (remove_nth n (pending s)) s))
      as [s'|] eqn:Hr; [|unfold mirrored; eauto 10].
    destruct (send_resume_effect k r _ s' Hr)
      as ((Hu' & _) & rows' & next & Hdb' & Hv' & Hp' & Hfor & _).
    cbn [user db_messages messages pending set_pending] in Hu', Hdb', Hv', Hp', Hfor.
    assert (Hwk : writes_for (user s) k).
    { rewrite Hu. exact (Forall_nth_error _ n _ k Hpend Hk). }
    destruct (Hfor Hwk) as [Hrows' Hnext].
    unfold mirrored. split; [congruence|]. split.
    + exists (rows ++ rows'). rewrite Hdb', Hv', Hdb, Hv, !app_assoc.
      split; [reflexivity|]. split; [reflexivity|].
      apply Forall_app. split; [exact Hrows|].
      rewrite <- Hu. exact Hrows'.
    + rewrite Hp'. apply Forall_app. split.
      * apply Forall_remove_nth. exact Hpend.
      * rewrite <- Hu. exact Hnext.
Qed.

Lemma run_mirrored (s0 : State) (inputs : list Input) :
  forall s, mirrored s0 s -> mirrored s0 (run inputs s).
Proof.
  induction inputs as [|i inputs IH]; intros s H; [exact H|].
  cbn [run fold_left]. apply IH. apply step_mirrored. exact H.
Qed.

Lemma app_not_nil_l {A} (l l' : list A) : l <> [] -> l ++ l' <> [].
Proof. destruct l; [contradiction | discriminate]. Qed.

Lemma step_shown_before_waiting (i : Input) (s : State) :
  shown_before_waiting s -> shown_before_waiting (step i s).
Proof.
  unfold shown_before_waiting. intros Hinv.
  destruct i as [text | | n r]; cbn [step].
  - exact Hinv.
  - unfold send_start.
    destruct (is_empty (trim (inputValue s)) || loading s); [exact Hinv|].
    cbn. apply Forall_app. split; [exact Hinv|].
    constructor; [left; reflexivity | constructor].
  - destruct (nth_error (pending s) n) as [k|] eqn:Hk; [|exact Hinv].
    destruct (send_resume k r (set_pending (remove_nth n (pending s)) s))
      as [s'|] eqn:Hr; [|exact Hinv].
    destruct (send_resume_effect k r _ s' Hr)
      as (_ & rows' & next & _ & Hv' & Hp' & _ & Hnext).
    cbn [messages pending set_pending] in Hv', Hp'.
    rewrite Hp', Hv'. apply Forall_app. split.
    + apply Forall_remove_nth.
      eapply Forall_impl; [|exact Hinv]. cbn beta.
      intros k' [H | H]; [left; exact H | right; apply app_not_nil_l; exact H].
    + eapply Forall_impl; [|exact Hnext]. cbn beta.
      intros k' [_ [Hrows | Hpast]]; right.
      * destruct rows'; [contradiction|]. intros H.
        apply app_eq_nil in H. destruct H as [_ H]. discriminate H.
      * apply app_not_nil_l.
        destruct (Forall_nth_error _ n _ k Hinv Hk) as [H | H];
          [congruence | exact H].
Qed.

Lemma run_shown_before_waiting (inputs : list Input) :
  forall s, shown_before_waiting s -> shown_before_waiting (run inputs s).
Proof.
  induction inputs as [|i inputs IH]; intros s H; [exact H|].
  cbn [run fold_left]. apply IH. apply step_shown_before_waiting. exact H.
Qed.

Lemma handleSendMessage_grows (env : Env) (s : State) :
  grows s (handleSendMessage env s).
Proof.
  destruct (is_empty (trim (inputValue s)) || loading s) eqn:Hguard.
  - unfold handleSendMessage. rewrite Hguard. apply grows_refl.
  - apply orb_false_elim in Hguard.
    rewrite (handleSendMessage_accepted env s Hguard).
    destruct (store_insert env _).
    2:{ unfold grows. cbn. repeat split; eexists; try reflexivity;
          rewrite app_nil_r; reflexivity. }
    cbn zeta.
    destruct (functions_invoke env _) as [data|].
    2:{ unfold grows. cbn. repeat split; eexists; try reflexivity;
          rewrite <- ?app_assoc; try reflexivity. }
    destruct (get data (lit "response")).
    2:{ unfold grows. cbn. repeat split; eexists; try reflexivity;
          rewrite <- ?app_assoc; try reflexivity. }
    destruct (store_insert env _);
      unfold grows; cbn; repeat split; eexists; try reflexivity;
        rewrite <- ?app_assoc; try reflexivity;
        rewrite app_nil_r; reflexivity.
Qed.

(** X16. The chat flow only ever adds to the history. Whatever the user
    types and presses, in whatever order promises settle, from any state,
    and likewise for a call run to completion: the stored messages, the
    view, the toasts and the trace of the new state are those of the old
    one with more at the end, so no row is ever changed, reordered or
    removed; and the user, the profile and the [profiles] table are
    untouched. *)
Theorem history_only_grows (events : list UiEvent) (env : Env) (s : State) :
  grows s (ui_run events s) /\ grows s (handleSendMessage env s).
Proof.
  split.
  - rewrite ui_run_as_run. apply run_grows.
  - apply handleSendMessage_grows.
Qed.

(** X17. From a state with nothing suspended, under any interleaving, the
    rows the session has stored are exactly the rows it has shown, in the
    same order, and all are rows of the session's user. So a view that
    showed the user's stored messages at the start still does. *)
Theorem view_mirrors_store (s0 : State) (events : list UiEvent) :
  pending s0 = [] ->
  let s := ui_run events s0 in
  (exists rows,
     db_messages s = db_messages s0 ++ rows /\
     messages s = messages s0 ++ rows /\
     Forall (fun m => user_id m = user s0) rows) /\
  (forall uid, user s0 = Some uid ->
     messages s0 = stored_for (user s0) s0 ->
     messages s = stored_for (user s) s).
Proof.
  intros Hidle s.
  assert (Hm : mirrored s0 s).
  { unfold s. rewrite ui_run_as_run. apply run_mirrored.
    unfold mirrored. split; [reflexivity|]. split.
    - exists []. rewrite !app_nil_r. repeat split. constructor.
    - rewrite Hidle. constructor. }
  destruct Hm as (Hu & (rows & Hdb & Hv & Hrows) & _).
  split; [exists rows; repeat split; assumption|].
  intros uid Huid Hview. unfold stored_for in *.
  rewrite Hu, Hdb, Hv, filter_app, <- Hview. f_equal.
  rewrite Huid in *. clear - Hrows.
  induction Hrows as [|m rows Hm _ IH]; [reflexivity|].
  cbn [filter]. unfold same_user at 1. rewrite Hm, jsstr_eqb_refl.
  rewrite <- IH. reflexivity.
Qed.

Lemma view_mirrors_store_witness :
  messages (ui_run sample_events sample_session)
  = stored_for (user (ui_run sample_events sample_session))
      (ui_run sample_events sample_session).
Proof.
  refine (proj2 (view_mirrors_store sample_session sample_events _)
            (lit "user-1") _ _).
  - reflexivity.
  - reflexivity.
  - reflexivity.
Defined.

Lemma ui_run_ready_or_sending (s0 : State) (events : list UiEvent) :
  loading s0 = false -> pending s0 = [] ->
  ready_or_sending (ui_run events s0).
Proof.
  intros Hl Hp. rewrite ui_run_as_run. apply run_ready_or_sending.
  left. split; assumption.
Qed.

(** X18. The send button is disabled exactly when a press would be
    rejected, and an accepted press disables both the input and the button
    on the spot. The Enter key does not go through the button, but it meets
    the same guard: while the button is disabled no key sends anything. *)
Theorem send_button_matches_guard (s : State) :
  (send_disabled s = true <-> step SendPressed s = s) /\
  (send_disabled s = true ->
   forall e, snd (handleKeyPress e s) = s) /\
  (send_disabled s = false ->
   input_disabled (step SendPressed s) = true /\
   send_disabled (step SendPressed s) = true).
Proof.
  unfold send_disabled, input_disabled. cbn [step]. unfold send_start.
  destruct (is_empty (trim (inputValue s)) || loading s) eqn:Hguard.
  - split; [split; reflexivity|].
    split; [|discriminate].
    intros _ e. unfold handleKeyPress, send_start. rewrite Hguard.
    destruct (jsstr_eqb (key e) (lit "Enter") && negb (shiftKey e)); reflexivity.
  - split.
    + split; [discriminate|]. intros Hsame.
      apply orb_false_elim in Hguard. destruct Hguard as [_ Hl].
      apply (f_equal loading) in Hsame. cbn in Hsame. congruence.
    + split; [discriminate|]. intros _. cbn.
      split; [reflexivity | apply orb_true_r].
Qed.

Lemma send_button_matches_guard_witness :
  snd (handleKeyPress plain_enter (ui_run sample_events sample_session))
  = ui_run sample_events sample_session.
Proof.
  refine (proj1 (proj2 (send_button_matches_guard
            (ui_run sample_events sample_session))) _ plain_enter).
  reflexivity.
Defined.

(** X19. From a ready state, under any interleaving: while the call in
    flight awaits the proxy or the assistant insert, the view is not empty
    and the thinking row is shown. The only time the session is loading
    without that row is while the user row of the first message of an empty
    conversation is being saved: the greeting is then still on screen. *)
Theorem thinking_row_while_answer_awaited (s0 : State) (events : list UiEvent) :
  loading s0 = false ->
  pending s0 = [] ->
  let s := ui_run events s0 in
  (forall k, pending s = [k] -> awaits_user_save k = false ->
     thinking_shown s = true) /\
  (loading s = true -> thinking_shown s = false ->
   greeting_shown s = true /\ exists req m, pending s = [AwaitUserSave req m]).
Proof.
  intros Hl Hp s.
  assert (Hinv : ready_or_sending s) by (apply ui_run_ready_or_sending; assumption).
  assert (Hshown : shown_before_waiting s).
  { unfold s. rewrite ui_run_as_run. apply run_shown_before_waiting.
    unfold shown_before_waiting. rewrite Hp. constructor. }
  unfold shown_before_waiting in Hshown. unfold ready_or_sending in Hinv.
  unfold thinking_shown, greeting_shown. split.
  - intros k Hk Hpast. rewrite Hk in Hshown, Hinv.
    inversion Hshown as [|k' l' [Hus | Hne] _]; subst; [congruence|].
    destruct Hinv as [[_ Hnil] | [Hload _]]; [discriminate Hnil|].
    rewrite Hload. destruct (messages s); [contradiction | reflexivity].
  - intros Hload Hno.
    destruct Hinv as [[Hl' _] | [_ [k Hk]]]; [congruence|].
    rewrite Hload, andb_true_r in Hno.
    destruct (messages s) eqn:Hms; [|discriminate Hno].
    split; [reflexivity|].
    rewrite Hk in Hshown.
    inversion Hshown as [|k' l' [Hus | Hne] _]; subst; [|contradiction].
    destruct k as [req m | body | req]; try discriminate Hus.
    exists req, m. exact Hk.
Qed.

Lemma thinking_row_while_answer_awaited_witness :
  thinking_shown (ui_run sample_events sample_session) = true.
Proof.
  refine (proj1 (thinking_row_while_answer_awaited sample_session sample_events
                   _ _) _ _ _).
  - reflexivity.
  - reflexivity.
  - reflexivity.
  - reflexivity.
Defined.

(** X20. With the keyboard as well as the button, a session that starts
    ready never has more than one call suspended and is loading exactly
    while one is; Shift+Enter and every key other than Enter change nothing
    and keep their default action, while a plain Enter always has its
    default action prevented, even when nothing is sent. *)
Theorem keyboard_keeps_one_call_in_flight (s0 : State) (events : list UiEvent) :
  loading s0 = false ->
  pending s0 = [] ->
  let s := ui_run events s0 in
  (List.length (pending s) <= 1)%nat /\
  (loading s = true <-> pending s <> []) /\
  (forall e, shiftKey e = true \/ jsstr_eqb (key e) (lit "Enter") = false ->
     handleKeyPress e s = (false, s)) /\
  (forall e, shiftKey e = false -> jsstr_eqb (key e) (lit "Enter") = true ->
     fst (handleKeyPress e s) = true /\
     (loading s = true -> snd (handleKeyPress e s) = s)).
Proof.
  intros Hl Hp s.
  assert (Hinv : ready_or_sending s) by (apply ui_run_ready_or_sending; assumption).
  split; [|split; [|split]].
  - destruct Hinv as [[_ ->] | [_ [k ->]]]; cbn; lia.
  - destruct Hinv as [[Hl' Hp'] | [Hl' [k Hp']]]; rewrite Hl', Hp'; split;
      congruence.
  - intros e He. unfold handleKeyPress.
    destruct He as [-> | ->]; [rewrite andb_false_r|]; reflexivity.
  - intros e Hshift Henter. unfold handleKeyPress. rewrite Hshift, Henter.
    cbn [andb negb fst snd]. split; [reflexivity|].
    intros Hload. unfold send_start. rewrite Hload, orb_true_r. reflexivity.
Qed.

Lemma keyboard_keeps_one_call_in_flight_witness :
  handleKeyPress shift_enter (ui_run sample_events sample_session)
  = (false, ui_run sample_events sample_session).
Proof.
  refine (proj1 (proj2 (proj2
    (keyboard_keeps_one_call_in_flight sample_session sample_events _ _)))
    shift_enter _).
  - reflexivity.
  - reflexivity.
  - left. reflexivity.
Defined.

(** The two loads touch different parts of the state. *)
Lemma loads_commute (env : Env) (answer : select_result) (c : Screen) :
  loadMessages answer (loadProfile_on env c) =
  loadProfile_on env (loadMessages answer c).
Proof.
  destruct c as [s flag]. unfold loadMessages, loadProfile_on.
  cbn [session loadingMessages]. f_equal.
  unfold loadProfile.
  destruct answer as [data|]; cbn [user db_profiles setMessages toast];
    (destruct (profiles_select env (user s)); [|reflexivity]);
    (destruct (filter (fun p => id_matches (user s) (profile_id p))
                 (db_profiles s)) as [|d [|d' rest]]; reflexivity).
Qed.

(** X21. The effect that loads the profile and the history. Without a user
    it does nothing, so a loading screen stays up. With a user the loading
    flag is cleared whether the history query succeeds or not, in whichever
    order the two loads settle (the result is the same); nothing is written
    to the store; a failed query keeps the view and raises the history
    toast, and a successful one replaces the view by the rows received,
    none if the data is [null]. *)
Theorem history_load (env : Env) (answer : select_result) (c : Screen) :
  (user (session c) = None ->
   forall profile_first, on_user profile_first env answer c = c) /\
  (user (session c) <> None ->
   on_user true env answer c = on_user false env answer c /\
   loadingMessages (on_user true env answer c) = false /\
   db_messages (session (on_user true env answer c)) = db_messages (session c) /\
   db_profiles (session (on_user true env answer c)) = db_profiles (session c) /\
   (answer = SelectError ->
    messages (session (on_user true env answer c)) = messages (session c) /\
    toasts (session (on_user true env answer c)) =
      toasts (session c) ++ [ load_failed_toast ]) /\
   (forall data, answer = Selected data ->
    messages (session (on_user true env answer c)) = or_nil data /\
    toasts (session (on_user true env answer c)) = toasts (session c))).
Proof.
  split.
  - intros Hnone profile_first. unfold on_user. rewrite Hnone. reflexivity.
  - intros Huser. unfold on_user.
    destruct (user (session c)) as [uid|] eqn:Hu; [|contradiction].
    split; [apply loads_commute|].
    rewrite loads_commute.
    destruct (loadProfile_frame env (session (loadMessages answer c)))
      as (Hdbp & Hdbm & Hms & Hts & _).
    unfold loadProfile_on. cbn [session loadingMessages].
    rewrite Hdbp, Hdbm, Hms, Hts.
    split; [reflexivity|].
    split; [destruct answer; reflexivity|].
    split; [destruct answer; reflexivity|].
    split.
    + intros ->. split; reflexivity.
    + intros data ->. split; reflexivity.
Qed.

Lemma history_load_witness :
  loadingMessages (on_user true sample_env SelectError sample_screen) = false /\
  messages (session (on_user true sample_env SelectError sample_screen)) = [].
Proof.
  destruct (proj2 (history_load sample_env SelectError sample_screen))
    as (_ & Hflag & _ & _ & Herr & _).
  - discriminate.
  - split; [exact Hflag | exact (proj1 (Herr eq_refl))].
Defined.

(** The body of the proxy's success response for a first choice whose
    content is text carries that text under [response]. *)
Lemma generated_body_response (text : jsstr) (b : json) :
  Proxy.body (Proxy.generated (Val (JStr text))) = Some b ->
  get (Val b) (lit "response") = Normal (Val (JStr text)).
Proof. intros H. injection H as <-. reflexivity. Qed.

(** X22. In a round trip that goes through and whose invocation data has a
    text under [response], the assistant turn stored and shown has that
    text, unchanged, as its content; and the body of the proxy's success
    response for a first choice with text content is such data, with that
    content as the text. *)
Theorem assistant_turn_is_proxy_response (env : Env) (s : State)
    (data : jsval) (text new_id timestamp new_id' timestamp' : jsstr) :
  accepted s ->
  store_insert env (user_request s) = Inserted new_id timestamp ->
  functions_invoke env (invoke_body (trim (inputValue s))) = Invoked data ->
  get data (lit "response") = Normal (Val (JStr text)) ->
  store_insert env (insert_req s RAssistant (Val (JStr text))) =
    Inserted new_id' timestamp' ->
  let s' := handleSendMessage env s in
  let u := stored_row (user_request s) new_id timestamp in
  let a := stored_row (insert_req s RAssistant (Val (JStr text)))
             new_id' timestamp' in
  db_messages s' = db_messages s ++ [u; a] /\
  messages s' = messages s ++ [u; a] /\
  role a = RAssistant /\
  content a = Val (JStr text) /\
  toasts s' = toasts s /\
  (forall (choice : jsstr) (b : json),
     Proxy.body (Proxy.generated (Val (JStr choice))) = Some b ->
     get (Val b) (lit "response") = Normal (Val (JStr choice))).
Proof.
  intros Hacc Hu Hi Hg Ha s' u a.
  destruct (handleSendMessage_outcome env s Hacc) as (_ & Hdb & Hv & Hto & _).
  assert (Ho : outcome env s = Completed u a).
  { unfold outcome. rewrite Hu. cbn zeta. rewrite Hi, Hg, Ha. reflexivity. }
  rewrite Ho in Hdb, Hv, Hto. cbn in Hdb, Hv, Hto. rewrite app_nil_r in Hto.
  repeat split; try assumption.
  exact generated_body_response.
Qed.

Lemma assistant_turn_is_proxy_response_witness :
  map content
    (db_messages (handleSendMessage sample_env
                    (setInputValue (lit "What is photosynthesis?") sample_session)))
  = [ Val (JStr (lit "What is photosynthesis?"));
      Val (JStr (lit "Plants turn light into sugar.")) ].
Proof.
  rewrite (proj1 (assistant_turn_is_proxy_response sample_env
             (setInputValue (lit "What is photosynthesis?") sample_session)
             sample_reply
             (lit "Plants turn light into sugar.")
             (lit "m-1") (lit "2025-01-01T10:00:00Z")
             (lit "m-2") (lit "2025-01-01T10:00:02Z")
             (conj eq_refl eq_refl) eq_refl eq_refl eq_refl eq_refl)).
  reflexivity.
Defined.

(** One settlement brings a sending session at least one [await] closer to
    its end, whatever the answer. *)
Lemma settle_next_progress (env : Env) (s : State) :
  ready_or_sending s ->
  ready_or_sending (settle_next env s) /\
  (calls_left (settle_next env s) <= pred (calls_left s))%nat.
Proof.
  intros Hinv. unfold settle_next, calls_left.
  destruct Hinv as [[Hl Hp] | [Hl [k Hp]]].
  - rewrite Hp. split; [left; split; assumption|]. rewrite Hp. cbn. lia.
  - rewrite Hp. cbn [step]. rewrite Hp. cbn [nth_error remove_nth].
    destruct k as [req userMessage | body | req]; cbn [answer send_resume].
    + destruct (store_insert env req) as [new_id timestamp|]; cbn zeta.
      * split; [right; cbn; split; [exact Hl | eexists; reflexivity]|].
        cbn. lia.
      * split; [left; cbn; split; reflexivity|]. cbn. lia.
    + destruct (functions_invoke env body) as [data|].
      * destruct (get data (lit "response")) as [c|e].
        -- split; [right; cbn; split; [exact Hl | eexists; reflexivity]|].
           cbn. lia.
        -- split; [left; cbn; split; reflexivity|]. cbn. lia.
      * split; [left; cbn; split; reflexivity|]. cbn. lia.
    + destruct (store_insert env req) as [new_id timestamp|]; cbn zeta;
        (split; [left; cbn; split; reflexivity|]); cbn; lia.
Qed.

(** X23. A call never stays in flight: from a ready state, under any
    interleaving, once the outside world has answered three times (in fact
    as many times as the call has [await]s left) the session is ready
    again, nothing suspended and [loading] cleared, whatever the answers
    were. *)
Theorem call_ends_within_three_answers (s0 : State) (events : list UiEvent)
    (e1 e2 e3 : Env) :
  loading s0 = false ->
  pending s0 = [] ->
  let s := settle_next e3 (settle_next e2 (settle_next e1 (ui_run events s0))) in
  pending s = [] /\ loading s = false.
Proof.
  intros Hl Hp s.
  pose proof (ui_run_ready_or_sending s0 events Hl Hp) as H0.
  assert (Hrank : (calls_left (ui_run events s0) <= 3)%nat).
  { unfold calls_left. destruct (pending (ui_run events s0)) as [|k l];
      [lia | destruct k; cbn; lia]. }
  destruct (settle_next_progress e1 _ H0) as [H1 Hr1].
  destruct (settle_next_progress e2 _ H1) as [H2 Hr2].
  destruct (settle_next_progress e3 _ H2) as [H3 Hr3].
  fold s in H3, Hr3.
  assert (Hzero : calls_left s = 0%nat) by lia.
  destruct H3 as [[Hl' Hp'] | [_ [k Hk]]]; [split; assumption|].
  unfold calls_left in Hzero. rewrite Hk in Hzero.
  destruct k; discriminate Hzero.
Qed.

Lemma call_ends_within_three_answers_witness :
  loading (settle_next sample_env_proxy_down
             (settle_next sample_env_proxy_down
                (settle_next sample_env_proxy_down
                   (ui_run sample_events sample_session)))) = false.
Proof.
  exact (proj2 (call_ends_within_three_answers sample_session sample_events
                  sample_env_proxy_down sample_env_proxy_down
                  sample_env_proxy_down eq_refl eq_refl)).
Defined.

End ChatBotMore.
